(* ===== verification/_CoqProject ===== *)
-Q . S2P
Prelude.v
JsValue.v
Firestore.v
MemStore.v
Migration.v
Samples.v
MigrationProps.v
Interleaving.v
Updates.v
Isolation.v
Report.v
Concurrent.v
Ambient.v
Success.v
