(* ===== verification/Prelude.v ===== *)
(** * A verified model of the FriendlyTCG conversation migration

    The repository ships one browser-console script,
    [src/scripts/browser_migration.js], whose single function
    [migrateConversations] backfills two fields of every document of the
    Firestore collection [conversations]:
    - [participants], set to the ordered pair [[sellerId, buyerId]] when the
      field is not an array and both ids are truthy;
    - [updatedAt], set to [createdAt] when that is truthy and to the
      server-timestamp sentinel otherwise, when [updatedAt] is falsy.
    All updates are staged in one [WriteBatch] and committed once; every
    exception is caught and logged.

    ** The parts of the program and their files (in dependency order)

    - [Prelude] (this file): the state-and-exception monad [SE] in which the
      async function is written.  JavaScript keeps the mutations and console
      output made before a [throw], so the state survives an exception.
      Also: its [let*] notation in [mig_scope], the loop combinator
      [se_foldM] for [Array.prototype.forEach] with a captured accumulator,
      its induction principle [se_foldM_inv], the hint databases [mig] and
      [mig_rw], and generic lemmas on lists and on [rtc].
    - [JsValue] (Module [JS]): the values a Firestore document holds
      ([value], with decidable equality); JavaScript truthiness ([truthy], behind [!x], [&&] and
      [||]); [Array.isArray] ([is_array]); the [||] of line 29 ([js_or]);
      the plain object [updates] as an insertion-ordered property list
      ([obj_set], [obj_keys]), with its lookup/assignment round trips.
    - [Firestore] (Module [FS]): the client library, which is not code of
      this repository.  Document references and snapshots, the
      [serverTimestamp] sentinel, the client-side batch [batch_update]
      (it rejects nested arrays synchronously, as the SDK does), and the
      effect of a committed batch [batch_effect].  The store interface is
      the typeclass [Firestore]; [FirestoreLaws] states what [get] and
      [commit] promise, atomicity included.
    - [MemStore]: an in-memory store.  Its failure modes are an unavailable
      service, a per-commit write limit and a missing target document.
      The instance [mem_laws] proves that it satisfies [FirestoreLaws].
    - [Migration] (Module [Migration]): the script itself, generic in the
      store.  [needsParticipants], [needsUpdatedAt], [participants_pair],
      [updatedAt_value] are lines 17-29.  [forEach_body] is the whole
      callback (lines 15-38), with its console output and its call of
      [batch.update].  [migration_body] is the [try] block and
      [migrateConversations] the function (lines 4-50).  [plan_updates]
      and [doc_logs] are pure readings of the callback's two outputs.
    - [Samples]: concrete stores the witnesses run on.
    - [MigrationProps]: the abstract backfill [spec_doc] (a pure map over
      a document's fields) and the theorems proved against the interface.
      They cover refinement of the backfill by a successful run (C1),
      idempotence (C2), all-or-nothing failure (C3), and that the function
      never rejects (C4).  Then the no-op run (C5), the per-document
      contract (C6-C9), and the console and count (C10).  Last come the
      error paths (C11-C12) and the write-limit liveness failure (C13).
    - [Interleaving]: the function as a step relation [sstep] over its two
      awaits, plus the writes of other clients ([step]).  The script's
      steps alone end in the configuration [run_migration] computes
      ([run_reaches], [sstep_final_unique]).  Any interleaving contains at
      most three script steps (C14), and an invariant holds in every
      reachable configuration, by rule induction (C15).
    - [Updates]: the object [updates] and the batch.  [lost_update] (C16)
      says what a concurrent writer suffers: in any interleaving, the
      commit writes to every document of the batch the [updatedAt]
      computed from the stale snapshot, over whatever was written in
      between.  [plan_updates_wf] (C17) gives the shape of the object the
      callback builds.  Then come its round trip to the store after a
      successful run (C18), the frame on every other field (C19), and the
      exact condition under which [batch.update] rejects a document
      Firestore can hold ([storable]; C20).  [pending_batch_wf] (C21)
      proves that the batch awaiting commit is well formed in every
      interleaving: by rule induction it is the batch the loop staged
      from some answer to [get] ([reachable_pending_planned]).
    - [Isolation]: writers of other collections ([other_env]) change
      nothing the script computes.  The proof is a simulation [sim]
      between the interleaved machine and the script run alone.  The
      store equivalence [agree] is respected by [get] and [commit], and
      the result is the refinement C22.
    - [Report]: what the console reports against what the store holds.
      The count printed at line 42 is the number of documents the run
      changed (C23), by [needs_write_changes]: a document is staged
      exactly when its backfill changes it.  Documents that lack an id
      are skipped without a trace: the run prints the report of a run
      with nothing to do (C24).  On success the console tells the truth:
      each per-document message names a document that holds what the
      message announces (C26).
    - [Concurrent]: two runs of the script interleaved on one store
      ([step2]), the concurrent re-run of spec section 5.  An invariant
      proved by rule induction says that every document is always as it
      was or its backfill, and that a run reporting success leaves the
      whole collection backfilled (C25).
    - [Ambient]: the global [firebase] as a store [option St]
      ([ambient_firestore]): without it, line 9 throws a [ReferenceError]
      ([ErrNoFirebase]) that the [catch] reports; with it, its client
      answers.  [ambient_laws] carries every theorem stated over a store
      with [FirestoreLaws] over to the global.
    - [Success]: on the in-memory store, the conditions under which a run
      reports success: the service answers, every update is accepted, and
      the batch is within the write limit (C27).  It also bounds the
      counts the console prints by the size of the collection (C28).

    ** What is left

    Every part of the script is modelled, and so is every call it makes.
    The one plan item not done is a store whose commit fails after a
    partial write.  The interface [FirestoreLaws] makes a failed commit
    return no state: that is the atomicity the spec assumes of the store
    (section 5).  The script itself has no code that could observe or
    repair a partial write, so such a store would test the store's
    contract, not the script.

    ** Bounds and fuel

    No definition uses fuel: the loop is structural over the snapshot's
    document list and the script has no other loop.  The counter
    [updated] is a JavaScript number that never exceeds the number of
    documents, far below 2^53, so it is modelled as [nat].  The write
    limit of a commit is a field of the in-memory store (500 in
    Firestore's documented limit), not a constant of the proofs.

    ** Not modelled

    The emoji text of the console messages (each message is a constructor
    carrying the values it interpolates); authentication beyond the
    client's answers (an unauthenticated client is a store that answers
    [ErrPermissionDenied]); JavaScript
    numbers beyond integers (a double is truthy iff it is non-zero and
    not NaN, which [VNum] and [VNaN] keep); field paths with dots
    (the script writes only the top-level fields [participants] and
    [updatedAt]).  The three-bucket result (updated, already correct,
    incomplete) and the chunked batching that spec section 9 recommends
    are not in the code; [Report] states what the code reports instead. *)

From stdpp Require Export base list gmap strings.
From Stdlib Require Export ZArith Lia.

Declare Scope mig_scope.
Delimit Scope mig_scope with mig.

Create HintDb mig discriminated.
Create Rewrite HintDb mig_rw.

(** ** Outcomes and the state-and-exception monad *)

(** The completion of a JavaScript computation: a normal value or a
    thrown exception. *)
Inductive exn (E A : Type) : Type :=
| Val (a : A)
| Exc (e : E).
Arguments Val {E A} a.
Arguments Exc {E A} e.

(** A computation over a state [S] that may throw [E].  The state after a
    throw is kept: in JavaScript the console output and the mutations made
    before an exception persist. *)
Definition SE (S E A : Type) : Type := S -> S * exn E A.

Section SEMonad.
Context {S E : Type}.

Definition se_ret {A} (a : A) : SE S E A := fun s => (s, Val a).

Definition se_bind {A B} (m : SE S E A) (k : A -> SE S E B) : SE S E B :=
  fun s =>
    match m s with
    | (s', Val a) => k a s'
    | (s', Exc e) => (s', Exc e)
    end.

Definition se_throw {A} (e : E) : SE S E A := fun s => (s, Exc e).

(** [try { m } catch (e) { h(e) }] *)
Definition se_catch {A} (m : SE S E A) (h : E -> SE S E A) : SE S E A :=
  fun s =>
    match m s with
    | (s', Exc e) => h e s'
    | r => r
    end.

Definition se_modify (f : S -> S) : SE S E unit := fun s => (f s, Val tt).

Definition se_gets {A} (f : S -> A) : SE S E A := fun s => (s, Val (f s)).

(** Lift a completion computed outside the monad (an awaited call). *)
Definition se_lift {A} (r : exn E A) : SE S E A := fun s => (s, r).

(** [xs.forEach(x => body)] where [body] updates the captured
    accumulator [acc]; an exception leaves the loop at once. *)
Fixpoint se_foldM {A B} (f : A -> B -> SE S E A) (acc : A) (xs : list B)
  : SE S E A :=
  match xs with
  | [] => se_ret acc
  | x :: xs' => se_bind (f acc x) (fun acc' => se_foldM f acc' xs')
  end.
End SEMonad.

Notation "'let*' x := m 'in' k" := (se_bind m (fun x => k))
  (at level 10, x name, m at level 100, k at level 200) : mig_scope.
Notation "m ;; k" := (se_bind m (fun _ => k))
  (at level 100, right associativity) : mig_scope.

(** ** Laws of the monad, pointwise (no extensionality is needed) *)

Section SELaws.
Context {S E : Type}.

Lemma se_bind_val {A B} (m : SE S E A) (k : A -> SE S E B) s s' a :
  m s = (s', Val a) -> se_bind m k s = k a s'.
Proof. intros Hm. unfold se_bind. by rewrite Hm. Qed.

Lemma se_bind_exc {A B} (m : SE S E A) (k : A -> SE S E B) s s' e :
  m s = (s', Exc e) -> se_bind m k s = (s', Exc e).
Proof. intros Hm. unfold se_bind. by rewrite Hm. Qed.

Lemma se_bind_ret_l {A B} (a : A) (k : A -> SE S E B) s :
  se_bind (se_ret a) k s = k a s.
Proof. reflexivity. Qed.

Lemma se_bind_ret_r {A} (m : SE S E A) s : se_bind m se_ret s = m s.
Proof. unfold se_bind. by destruct (m s) as [? []]. Qed.

Lemma se_bind_assoc {A B C} (m : SE S E A) (k : A -> SE S E B)
      (h : B -> SE S E C) s :
  se_bind (se_bind m k) h s = se_bind m (fun a => se_bind (k a) h) s.
Proof. unfold se_bind. by destruct (m s) as [? []]. Qed.

Lemma se_catch_val {A} (m : SE S E A) h s s' a :
  m s = (s', Val a) -> se_catch m h s = (s', Val a).
Proof. intros Hm. unfold se_catch. by rewrite Hm. Qed.

Lemma se_catch_exc {A} (m : SE S E A) h s s' e :
  m s = (s', Exc e) -> se_catch m h s = h e s'.
Proof. intros Hm. unfold se_catch. by rewrite Hm. Qed.

Lemma se_foldM_app {A B} (f : A -> B -> SE S E A) acc xs ys s :
  se_foldM f acc (xs ++ ys) s
  = se_bind (se_foldM f acc xs) (fun acc' => se_foldM f acc' ys) s.
Proof.
  revert acc s. induction xs as [|x xs IH]; intros acc s; simpl; [done|].
  unfold se_bind. destruct (f acc x s) as [s1 [a1|e1]]; [|done].
  specialize (IH a1 s1). unfold se_bind in IH. exact IH.
Qed.

(** The induction principle of the loop: an invariant [I] of the
    accumulator and the state that every normal step preserves holds
    after a normal exit, and [J] holds after an exception when every
    throwing step establishes it from [I]. *)
Lemma se_foldM_inv {A B} (f : A -> B -> SE S E A)
      (I : A -> S -> Prop) (J : E -> S -> Prop) xs :
  (forall acc x s s' acc', x ∈ xs -> I acc s -> f acc x s = (s', Val acc') ->
     I acc' s') ->
  (forall acc x s s' e, x ∈ xs -> I acc s -> f acc x s = (s', Exc e) -> J e s') ->
  forall acc s, I acc s ->
    match se_foldM f acc xs s with
    | (s', Val acc') => I acc' s'
    | (s', Exc e) => J e s'
    end.
Proof.
  induction xs as [|x xs IH]; intros Hv He acc s HI; simpl; [done|].
  unfold se_bind. destruct (f acc x s) as [s1 [a1|e1]] eqn:Hf.
  - apply IH; [intros; eapply Hv; eauto; set_solver
              |intros; eapply He; eauto; set_solver|].
    eapply Hv; eauto. set_solver.
  - eapply He; eauto. set_solver.
Qed.
End SELaws.

#[export] Hint Rewrite @se_bind_ret_l @se_bind_assoc @se_foldM_app : mig_rw.

(** ** Tactics shared by the components *)

(** Case on every [if] and [match] of a goal built from decidable tests. *)
Ltac mig_case :=
  repeat match goal with
  | |- context [if ?b then _ else _] => destruct b eqn:?
  | |- context [match ?o with Some _ => _ | None => _ end] => destruct o eqn:?
  end.

(** Run the monadic layers of a goal. *)
Ltac se_simpl :=
  unfold se_bind, se_ret, se_throw, se_catch, se_modify, se_gets, se_lift in *;
  simpl in *.

(** ** Generic lemmas on lists *)

Lemma length_filter_le {A} (P : A -> Prop) `{forall x, Decision (P x)} (l : list A) :
  length (filter P l) <= length l.
Proof.
  induction l as [|x l IH]; simpl; [lia|].
  rewrite filter_cons. case_decide; simpl; lia.
Qed.

Lemma filter_all {A} (P : A -> Prop) `{forall x, Decision (P x)} (l : list A) :
  Forall P l -> filter P l = l.
Proof.
  induction 1 as [|x l Hx _ IH]; [done|].
  rewrite filter_cons_True; [by rewrite IH|done].
Qed.

Lemma filter_none {A} (P : A -> Prop) `{forall x, Decision (P x)} (l : list A) :
  Forall (fun x => ~ P x) l -> filter P l = [].
Proof.
  induction 1 as [|x l Hx _ IH]; [done|].
  rewrite filter_cons_False; [done|done].
Qed.

(** A map without duplicates on [l] is injective on the elements of [l]. *)
Lemma NoDup_fmap_inj_on {A B} (f : A -> B) (l : list A) x y :
  NoDup (f <$> l) -> x ∈ l -> y ∈ l -> f x = f y -> x = y.
Proof.
  induction l as [|z l IH]; intros Hnd Hx Hy Hf; [by apply elem_of_nil in Hx|].
  rewrite fmap_cons in Hnd. apply NoDup_cons in Hnd as [Hz Hnd].
  apply elem_of_cons in Hx as [->|Hx], Hy as [->|Hy]; [done| | |by apply IH].
  - destruct Hz. rewrite Hf. by apply list_elem_of_fmap_2.
  - destruct Hz. rewrite <- Hf. by apply list_elem_of_fmap_2.
Qed.

(** [List.find] finds nothing when the test fails everywhere. *)
Lemma find_Forall_false {A} (f : A -> bool) (l : list A) :
  Forall (fun x => f x = false) l -> List.find f l = None.
Proof. induction 1 as [|x l Hx _ IH]; simpl; [done|]. by rewrite Hx. Qed.

(** Two tests that agree on every element filter alike. *)
Lemma filter_ext_Forall {A} (P Q : A -> Prop) `{forall x, Decision (P x)}
      `{forall x, Decision (Q x)} (l : list A) :
  Forall (fun x => P x <-> Q x) l -> filter P l = filter Q l.
Proof.
  induction 1 as [|x l Hx _ IH]; [done|]. rewrite !filter_cons, IH.
  destruct (decide (P x)), (decide (Q x)); naive_solver.
Qed.

(** A list either satisfies a boolean test everywhere or has a first
    element that fails it. *)
Lemma list_first_failure {A} (p : A -> bool) (l : list A) :
  Forall (fun x => p x = true) l \/
  exists pre x post, l = pre ++ x :: post /\ Forall (fun x => p x = true) pre /\ p x = false.
Proof.
  induction l as [|x l [IH|(pre & y & post & -> & Hpre & Hy)]].
  - by left.
  - destruct (p x) eqn:Hx; [left; by constructor|right].
    exists [], x, l. by split_and!.
  - destruct (p x) eqn:Hx; [|right; exists [], x, (pre ++ y :: post); by split_and!].
    right. exists (x :: pre), y, post. split_and!; [done|by constructor|done].
Qed.

(** A property preserved by every step holds along every path. *)
Lemma rtc_preserve {A} (R : relation A) (P : A -> Prop) :
  (forall a b, R a b -> P a -> P b) -> forall a b, rtc R a b -> P a -> P b.
Proof. intros HR a b H. induction H; eauto. Qed.

(** A deterministic relation reaches at most one irreducible state. *)
Lemma rtc_det_final {A} (R : relation A) :
  (forall a b c, R a b -> R a c -> b = c) ->
  forall a b c, rtc R a b -> rtc R a c ->
  (forall d, ~ R b d) -> (forall d, ~ R c d) -> b = c.
Proof.
  intros Hdet a b c Hab. revert c.
  induction Hab as [a|a a' b Ha _ IH]; intros c Hac Hb Hc.
  - destruct Hac as [|a a'' c H1 _]; [done|]. by destruct (Hb _ H1).
  - destruct Hac as [|a a'' c H1 H2]; [by destruct (Hc _ Ha)|].
    rewrite (Hdet _ _ _ Ha H1) in IH. by apply IH.
Qed.

#[export] Hint Resolve length_filter_le filter_all filter_none : mig.
