(* ===== verification/JsValue.v ===== *)
(** * JavaScript values of Firestore documents

    The values [doc.data()] returns (lines 16-29 of
    [src/scripts/browser_migration.js]) as JavaScript sees them, the
    truthiness test behind [!x], [x && y] and [x || y], [Array.isArray],
    and the plain object [updates] of lines 21-33, whose keys keep their
    insertion order. *)

From S2P Require Import Prelude.

Local Set Warnings "-register-all".

Module JS.

(** The field values of a Firestore document once decoded by the SDK:
    [null], booleans, numbers, strings, bytes, timestamps, geopoints,
    document references, arrays and maps.  A number is kept by its
    integer value or as NaN: only its truthiness matters to the script,
    and a double is truthy exactly when it is non-zero and not NaN. *)
Inductive value : Type :=
| VNull
| VBool (b : bool)
| VNum (n : Z)
| VNaN
| VStr (s : string)
| VBytes (bs : list Byte.byte)
| VTimestamp (seconds nanos : Z)
| VGeoPoint (latitude longitude : Z)
| VRef (path : string)
| VArray (xs : list value)
| VMap (fields : list (string * value)).

(** The field map of a document, as returned by [doc.data()]. *)
Abbreviation fields := (gmap string value).

(** Structural equality of values is decidable, hence so is equality of
    documents ([gmap]'s instance). *)
Fixpoint value_eq_dec (x y : value) {struct x} : {x = y} + {x <> y}.
Proof.
  decide equality;
    first [ apply Z.eq_dec | apply String.string_dec | apply Bool.bool_dec
          | apply (List.list_eq_dec Byte.byte_eq_dec)
          | apply (List.list_eq_dec value_eq_dec)
          | apply List.list_eq_dec; decide equality; apply String.string_dec ].
Defined.

#[export] Instance value_eq_decision : EqDecision value := value_eq_dec.

(** [data.f]: an absent field reads as [undefined], here [None]. *)
Definition prop (data : fields) (f : string) : option value := data !! f.

(** ToBoolean on a present value. *)
Definition truthy_v (v : value) : bool :=
  match v with
  | VNull => false
  | VBool b => b
  | VNum n => negb (Z.eqb n 0)
  | VNaN => false
  | VStr s => negb (String.eqb s "")
  | VBytes _ | VTimestamp _ _ | VGeoPoint _ _ | VRef _ | VArray _ | VMap _ => true
  end.

(** ToBoolean on a property read; [undefined] is falsy. *)
Definition truthy (o : option value) : bool :=
  match o with
  | Some v => truthy_v v
  | None => false
  end.

(** [Array.isArray(x)]. *)
Definition is_array (o : option value) : bool :=
  match o with
  | Some (VArray _) => true
  | _ => false
  end.

(** [a || b] where [a] is a property read and [b] a value of another kind
    ([inj] embeds the values of [a] into the kind of the result): the
    left operand when it is truthy, the right one otherwise. *)
Definition js_or {B} (inj : value -> B) (a : option value) (b : B) : B :=
  match a with
  | Some v => if truthy_v v then inj v else b
  | None => b
  end.

(** A plain object built by property assignment: the keys in insertion
    order, as [Object.keys] lists them. *)
Definition obj (B : Type) : Type := list (string * B).

Definition obj_empty {B} : obj B := [].

Definition obj_keys {B} (o : obj B) : list string := map fst o.

Fixpoint obj_get {B} (o : obj B) (k : string) : option B :=
  match o with
  | [] => None
  | (k', v) :: o' => if String.eqb k k' then Some v else obj_get o' k
  end.

(** [o.k = v]: an existing key keeps its position, a new key goes last. *)
Fixpoint obj_set {B} (k : string) (v : B) (o : obj B) : obj B :=
  match o with
  | [] => [(k, v)]
  | (k', v') :: o' =>
      if String.eqb k k' then (k', v) :: o' else (k', v') :: obj_set k v o'
  end.

(** ** Lemmas *)

Lemma truthy_Some v : truthy (Some v) = truthy_v v.
Proof. reflexivity. Qed.

Lemma truthy_None : truthy None = false.
Proof. reflexivity. Qed.

Lemma is_array_truthy o : is_array o = true -> truthy o = true.
Proof. by destruct o as [[]|]. Qed.

Lemma js_or_truthy {B} (inj : value -> B) a b v :
  a = Some v -> truthy_v v = true -> js_or inj a b = inj v.
Proof. intros -> Hv. simpl. by rewrite Hv. Qed.

Lemma js_or_falsy {B} (inj : value -> B) a b :
  truthy a = false -> js_or inj a b = b.
Proof. destruct a as [v|]; simpl; [|done]. by intros ->. Qed.

(** The result of [a || b] is the left operand, when truthy, or [b]. *)
Lemma js_or_cases {B} (inj : value -> B) a b :
  (exists v, a = Some v /\ truthy_v v = true /\ js_or inj a b = inj v)
  \/ (truthy a = false /\ js_or inj a b = b).
Proof.
  destruct (truthy a) eqn:Ht.
  - left. destruct a as [v|]; [|done]. exists v. simpl in *. by rewrite Ht.
  - right. split; [done|]. by apply js_or_falsy.
Qed.

Lemma obj_get_set_eq {B} (o : obj B) k v : obj_get (obj_set k v o) k = Some v.
Proof.
  induction o as [|[k' v'] o IH]; simpl.
  - by rewrite String.eqb_refl.
  - destruct (String.eqb k k') eqn:E; simpl; rewrite E; [done|apply IH].
Qed.

Lemma obj_get_set_ne {B} (o : obj B) k k2 v :
  k <> k2 -> obj_get (obj_set k v o) k2 = obj_get o k2.
Proof.
  intros Hne. induction o as [|[k' v'] o IH]; simpl.
  - apply String.eqb_neq in Hne. rewrite String.eqb_sym in Hne. by rewrite Hne.
  - destruct (String.eqb k k') eqn:E; simpl; [|by rewrite IH].
    apply String.eqb_eq in E as <-.
    apply String.eqb_neq in Hne. rewrite String.eqb_sym in Hne. by rewrite Hne.
Qed.

Lemma obj_get_Some_in {B} (o : obj B) k :
  is_Some (obj_get o k) <-> k ∈ obj_keys o.
Proof.
  induction o as [|[k' v'] o IH]; simpl.
  - split; [by intros []|]. intros H. by apply elem_of_nil in H.
  - rewrite elem_of_cons. destruct (String.eqb k k') eqn:E.
    + apply String.eqb_eq in E. split; [by left|by eauto].
    + apply String.eqb_neq in E. rewrite IH. naive_solver.
Qed.

(** Assigning a key that is already present does not add a key. *)
Lemma obj_keys_set_in {B} (o : obj B) k v :
  k ∈ obj_keys o -> obj_keys (obj_set k v o) = obj_keys o.
Proof.
  induction o as [|[k' v'] o IH]; simpl; intros Hin.
  - by apply elem_of_nil in Hin.
  - destruct (String.eqb k k') eqn:E; simpl; [done|].
    apply String.eqb_neq in E. rewrite elem_of_cons in Hin.
    destruct Hin as [->|Hin]; [done|]. by rewrite IH.
Qed.

(** Assigning a new key appends it. *)
Lemma obj_keys_set_notin {B} (o : obj B) k v :
  k ∉ obj_keys o -> obj_keys (obj_set k v o) = obj_keys o ++ [k].
Proof.
  induction o as [|[k' v'] o IH]; simpl; intros Hin; [done|].
  rewrite elem_of_cons in Hin.
  destruct (String.eqb k k') eqn:E.
  - apply String.eqb_eq in E. tauto.
  - simpl. rewrite IH; [done|tauto].
Qed.

Lemma obj_keys_set_nodup {B} (o : obj B) k v :
  NoDup (obj_keys o) -> NoDup (obj_keys (obj_set k v o)).
Proof.
  intros Hnd. destruct (decide (k ∈ obj_keys o)) as [Hin|Hin].
  - by rewrite obj_keys_set_in.
  - rewrite obj_keys_set_notin by done. apply NoDup_app.
    split; [done|]. split; [|apply NoDup_singleton].
    intros x Hx ->%list_elem_of_singleton. done.
Qed.

Lemma length_obj_set {B} (o : obj B) k v :
  length (obj_set k v o) = length o + (if decide (k ∈ obj_keys o) then 0 else 1).
Proof.
  rewrite <- !(length_map fst). fold (obj_keys o) (obj_keys (obj_set k v o)).
  case_decide.
  - rewrite obj_keys_set_in; [lia|done].
  - rewrite obj_keys_set_notin, length_app by done. simpl. lia.
Qed.

End JS.

#[export] Hint Rewrite @JS.obj_get_set_eq @JS.truthy_Some @JS.truthy_None : mig_rw.
#[export] Hint Resolve JS.is_array_truthy JS.obj_keys_set_nodup : mig.
