(* ===== verification/Firestore.v ===== *)
(** * The Firestore client, as far as the script uses it

    The script calls the Firestore SDK, which is not code of this
    repository: [collection(c).get()] (line 9), [batch()] (line 12),
    [batch.update(ref, data)] (line 34), [batch.commit()] (line 41) and
    [FieldValue.serverTimestamp()] (line 29).  This file holds
    - the data the SDK hands to the script: document references and
      snapshots, and the field values of an update, including the
      server-timestamp sentinel;
    - the client-side [WriteBatch]: [batch_update] validates its argument
      synchronously, as the SDK does, and throws on a nested array;
    - the effect of a committed batch on a document ([batch_effect]): the
      updates of the batch in order, the sentinel resolved to the one
      commit time;
    - the store interface: the typeclass [Firestore] of the two remote
      operations and the observation of a document, and [FirestoreLaws],
      what [get] and [commit] promise.  The script's theorems are proved
      against these laws; [MemStore] discharges them. *)

From S2P Require Import Prelude JsValue.
Import JS.

Local Set Warnings "-register-all".

Module FS.

(** A document reference [doc.ref]: its collection and its id. *)
Record doc_ref : Type := DocRef { ref_coll : string; ref_id : string }.

#[export] Instance doc_ref_eq_dec : EqDecision doc_ref.
Proof. solve_decision. Defined.

(** A [QueryDocumentSnapshot]: [doc.id], [doc.ref] and [doc.data()]. *)
Record doc_snapshot : Type :=
  DocSnap { ds_id : string; ds_ref : doc_ref; ds_data : fields }.

(** The value of a field in an update: a value, or the sentinel
    [FieldValue.serverTimestamp()]. *)
Inductive field_value : Type :=
| FVal (v : value)
| FServerTimestamp.

(** The argument of [batch.update(ref, data)]. *)
Abbreviation update_data := (obj field_value).

(** A [WriteBatch]: the staged updates, in call order. *)
Abbreviation write_batch := (list (doc_ref * update_data)).

(** Why an argument of [batch.update] is rejected. *)
Inductive invalid_reason : Type :=
| NestedArray
| TooManyWrites.

(** The errors the awaited calls and [batch.update] can raise, and the
    [ReferenceError] of reading an undefined global [firebase]. *)
Inductive fs_error : Type :=
| ErrUnavailable
| ErrPermissionDenied
| ErrNotFound (r : doc_ref)
| ErrInvalidArgument (why : invalid_reason)
| ErrNoFirebase.

(** A server time: seconds and nanoseconds. *)
Abbreviation timestamp := (Z * Z)%type.

(** ** The client-side batch *)

(** Firestore does not store an array directly inside an array
    ("Nested arrays are not supported"); an array inside a map inside an
    array is allowed. *)
Fixpoint no_nested_arrays (v : value) : bool :=
  match v with
  | VArray xs =>
      forallb (fun x => match x with
                        | VArray _ => false
                        | _ => no_nested_arrays x
                        end) xs
  | VMap fs => forallb (fun kv => match kv with (_, x) => no_nested_arrays x end) fs
  | _ => true
  end.

Definition valid_field_value (fv : field_value) : bool :=
  match fv with
  | FVal v => no_nested_arrays v
  | FServerTimestamp => true
  end.

(** [batch.update(ref, data)]: the data is parsed and validated at the
    call, which throws synchronously on invalid data; a valid update is
    appended to the batch. *)
Definition batch_update (b : write_batch) (r : doc_ref) (u : update_data)
  : exn fs_error write_batch :=
  if forallb (fun kv => valid_field_value kv.2) u
  then Val (b ++ [(r, u)])
  else Exc (ErrInvalidArgument NestedArray).

(** ** The effect of a committed batch *)

(** The sentinel becomes the commit time. *)
Definition resolve (t : timestamp) (fv : field_value) : value :=
  match fv with
  | FVal v => v
  | FServerTimestamp => VTimestamp t.1 t.2
  end.

(** An update sets each of its top-level fields and keeps the others. *)
Definition apply_update (t : timestamp) (u : update_data) (f : fields) : fields :=
  foldl (fun acc kv => <[kv.1 := resolve t kv.2]> acc) f u.

(** The document [r] after the writes of [b], all at time [t]. *)
Definition batch_effect (t : timestamp) (b : write_batch) (r : doc_ref)
           (o : option fields) : option fields :=
  foldl (fun acc w => if decide (w.1 = r) then apply_update t w.2 <$> acc else acc) o b.

(** ** The store interface *)

Class Firestore (St : Type) := {
  fs_get : St -> string -> exn fs_error (list doc_snapshot);
  fs_commit : St -> write_batch -> exn fs_error St;
  fs_doc : St -> doc_ref -> option fields;
}.

(** What [collection(c).get()] and [batch.commit()] promise.  A failed
    commit returns no state: the caller keeps the one it had, which is the
    atomicity of a batched write. *)
Class FirestoreLaws (St : Type) `{!Firestore St} := {
  get_sound : forall st c docs, fs_get st c = Val docs ->
    Forall (fun d => ds_ref d = DocRef c (ds_id d) /\ fs_doc st (ds_ref d) = Some (ds_data d)) docs;
  get_nodup : forall st c docs, fs_get st c = Val docs -> NoDup (map ds_id docs);
  get_complete : forall st c docs id f, fs_get st c = Val docs ->
    fs_doc st (DocRef c id) = Some f -> exists d, d ∈ docs /\ ds_id d = id;
  commit_spec : forall st b st', fs_commit st b = Val st' ->
    exists t, forall r, fs_doc st' r = batch_effect t b r (fs_doc st r);
  commit_targets : forall st b st', fs_commit st b = Val st' ->
    Forall (fun w => is_Some (fs_doc st w.1)) b;
}.

(** ** Lemmas on the batch *)

Lemma batch_update_val b r u b' :
  batch_update b r u = Val b' -> b' = b ++ [(r, u)].
Proof. unfold batch_update. case_match; congruence. Qed.

Lemma batch_update_valid b r u :
  forallb (fun kv => valid_field_value kv.2) u = true ->
  batch_update b r u = Val (b ++ [(r, u)]).
Proof. unfold batch_update. by intros ->. Qed.

Lemma batch_effect_app t b1 b2 r o :
  batch_effect t (b1 ++ b2) r o = batch_effect t b2 r (batch_effect t b1 r o).
Proof. unfold batch_effect. by rewrite foldl_app. Qed.

(** Writes to other documents do not touch [r]. *)
Lemma batch_effect_other t b r o :
  Forall (fun w => w.1 <> r) b -> batch_effect t b r o = o.
Proof.
  unfold batch_effect. revert o.
  induction b as [|w b IH]; intros o Hb; simpl; [done|].
  apply Forall_cons in Hb as [Hw Hb]. rewrite decide_False by done. by apply IH.
Qed.

(** A batch with exactly one write to [r] applies that write to [r]. *)
Lemma batch_effect_single t b1 b2 r u o :
  Forall (fun w => w.1 <> r) (b1 ++ b2) ->
  batch_effect t (b1 ++ (r, u) :: b2) r o = apply_update t u <$> o.
Proof.
  intros Hb. apply Forall_app in Hb as [H1 H2].
  rewrite batch_effect_app, (batch_effect_other t b1) by done.
  unfold batch_effect. simpl. rewrite decide_True by done.
  fold (batch_effect t b2 r (apply_update t u <$> o)). by apply batch_effect_other.
Qed.

Lemma apply_update_nil t f : apply_update t [] f = f.
Proof. reflexivity. Qed.

Lemma apply_update_cons t k fv u f :
  apply_update t ((k, fv) :: u) f = apply_update t u (<[k := resolve t fv]> f).
Proof. reflexivity. Qed.

(** A field the update does not name keeps its value. *)
Lemma apply_update_lookup_other t u f k :
  k ∉ obj_keys u -> apply_update t u f !! k = f !! k.
Proof.
  revert f. induction u as [|[k' fv] u IH]; intros f Hk; simpl; [done|].
  unfold obj_keys in Hk. simpl in Hk. rewrite elem_of_cons in Hk.
  rewrite IH by (unfold obj_keys; tauto).
  rewrite lookup_insert_ne; [done|]. intros ->. tauto.
Qed.

(** A field named once by the update takes its resolved value. *)
Lemma apply_update_lookup t u f k fv :
  NoDup (obj_keys u) -> obj_get u k = Some fv ->
  apply_update t u f !! k = Some (resolve t fv).
Proof.
  revert f. induction u as [|[k' fv'] u IH]; intros f Hnd Hget; simpl in *; [done|].
  unfold obj_keys in Hnd. simpl in Hnd. apply NoDup_cons in Hnd as [Hnin Hnd].
  destruct (String.eqb k k') eqn:E.
  - apply String.eqb_eq in E as ->. injection Hget as <-.
    rewrite apply_update_lookup_other by exact Hnin. by rewrite lookup_insert_eq.
  - by apply IH.
Qed.

End FS.

#[export] Hint Rewrite FS.apply_update_nil FS.apply_update_cons : mig_rw.
