(* ===== verification/MemStore.v ===== *)
(** * An in-memory Firestore

    An implementation of the [Firestore] interface: the database as a map
    from collection names to maps from document ids to field maps, a
    server clock, whether the service answers, and the write limit of a
    commit.  [mem_get] lists a collection; [mem_commit] fails when the
    service is unavailable, when the batch has more writes than the limit,
    or when a target document does not exist (an [update] needs an existing
    document), and otherwise applies every write with the sentinel
    resolved to the server clock.  [mem_laws] proves that it satisfies
    [FirestoreLaws], so every theorem of [MigrationProps] applies to it. *)

From S2P Require Import Prelude JsValue Firestore.
Import JS FS.

Module MemStore.

Record mem_store : Type := MemSt {
  ms_db : gmap string (gmap string fields);
  ms_now : timestamp;
  ms_online : bool;
  ms_max_writes : nat;
}.

(** A collection that was never written is empty. *)
Definition ms_coll (db : gmap string (gmap string fields)) (c : string)
  : gmap string fields :=
  default ∅ (db !! c).

Definition mem_doc (st : mem_store) (r : doc_ref) : option fields :=
  ms_coll (ms_db st) (ref_coll r) !! ref_id r.

Definition snapshot_of (c : string) (kv : string * fields) : doc_snapshot :=
  DocSnap kv.1 (DocRef c kv.1) kv.2.

Definition mem_get (st : mem_store) (c : string) : exn fs_error (list doc_snapshot) :=
  if ms_online st
  then Val (snapshot_of c <$> map_to_list (ms_coll (ms_db st) c))
  else Exc ErrUnavailable.

(** One write of a committed batch. *)
Definition write_db (t : timestamp) (db : gmap string (gmap string fields))
           (w : doc_ref * update_data) : gmap string (gmap string fields) :=
  <[ref_coll w.1 := alter (apply_update t w.2) (ref_id w.1) (ms_coll db (ref_coll w.1))]> db.

Definition is_missing (st : mem_store) (w : doc_ref * update_data) : bool :=
  match mem_doc st w.1 with
  | Some _ => false
  | None => true
  end.

Definition mem_commit (st : mem_store) (b : write_batch) : exn fs_error mem_store :=
  if negb (ms_online st) then Exc ErrUnavailable
  else if Nat.ltb (ms_max_writes st) (length b) then Exc (ErrInvalidArgument TooManyWrites)
  else match List.find (is_missing st) b with
       | Some w => Exc (ErrNotFound w.1)
       | None => Val (MemSt (foldl (write_db (ms_now st)) (ms_db st) b)
                            (ms_now st) (ms_online st) (ms_max_writes st))
       end.

#[export] Instance mem_firestore : Firestore mem_store := {
  fs_get := mem_get;
  fs_commit := mem_commit;
  fs_doc := mem_doc;
}.

(** ** The laws *)

Lemma ms_coll_write t db w c :
  ms_coll (write_db t db w) c
  = if decide (ref_coll w.1 = c)
    then alter (apply_update t w.2) (ref_id w.1) (ms_coll db c)
    else ms_coll db c.
Proof.
  unfold write_db, ms_coll at 1. case_decide as Hc.
  - subst c. by rewrite lookup_insert_eq.
  - by rewrite lookup_insert_ne.
Qed.

Lemma lookup_write_db t db w c id :
  ms_coll (write_db t db w) c !! id
  = if decide (w.1 = DocRef c id)
    then apply_update t w.2 <$> ms_coll db c !! id
    else ms_coll db c !! id.
Proof.
  rewrite ms_coll_write. destruct w as [[c' id'] u]; simpl.
  case_decide as Hc; [subst c'|].
  - case_decide as Hr.
    + injection Hr as ->. by rewrite lookup_alter_eq.
    + rewrite lookup_alter_ne; [done|]. intros ->. by apply Hr.
  - rewrite decide_False; [done|]. by injection 1.
Qed.

Lemma lookup_foldl_write_db t b db c id :
  ms_coll (foldl (write_db t) db b) c !! id
  = batch_effect t b (DocRef c id) (ms_coll db c !! id).
Proof.
  revert db. induction b as [|w b IH]; intros db; simpl; [done|].
  rewrite IH, lookup_write_db. unfold batch_effect. simpl. by case_decide.
Qed.

Lemma mem_get_val st c docs :
  mem_get st c = Val docs ->
  docs = snapshot_of c <$> map_to_list (ms_coll (ms_db st) c).
Proof. unfold mem_get. case_match; congruence. Qed.

Lemma mem_commit_val st b st' :
  mem_commit st b = Val st' ->
  List.find (is_missing st) b = None /\
  st' = MemSt (foldl (write_db (ms_now st)) (ms_db st) b)
              (ms_now st) (ms_online st) (ms_max_writes st).
Proof. unfold mem_commit. repeat case_match; naive_solver. Qed.

Lemma mem_get_sound st c docs : mem_get st c = Val docs ->
  Forall (fun d => ds_ref d = DocRef c (ds_id d) /\ mem_doc st (ds_ref d) = Some (ds_data d)) docs.
Proof.
  intros ->%mem_get_val. apply Forall_fmap, Forall_forall.
  intros [id f] Hin. split; [done|]. by apply elem_of_map_to_list in Hin.
Qed.

Lemma mem_get_nodup st c docs : mem_get st c = Val docs -> NoDup (map ds_id docs).
Proof.
  intros ->%mem_get_val. rewrite <- list_fmap_compose.
  apply NoDup_fst_map_to_list.
Qed.

Lemma mem_get_complete st c docs id f : mem_get st c = Val docs ->
  mem_doc st (DocRef c id) = Some f -> exists d, d ∈ docs /\ ds_id d = id.
Proof.
  intros ->%mem_get_val Hf. exists (snapshot_of c (id, f)). split; [|done].
  apply list_elem_of_fmap_2. by apply elem_of_map_to_list.
Qed.

(** A committed batch applies its writes at the server clock: the
    in-memory store refines the batch semantics of the interface. *)
Lemma mem_commit_spec st b st' : mem_commit st b = Val st' ->
  forall r, mem_doc st' r = batch_effect (ms_now st) b r (mem_doc st r).
Proof.
  intros [_ ->]%mem_commit_val [c id]. unfold mem_doc. simpl.
  apply lookup_foldl_write_db.
Qed.

Lemma mem_commit_targets st b st' : mem_commit st b = Val st' ->
  Forall (fun w => is_Some (mem_doc st w.1)) b.
Proof.
  intros [Hfind _]%mem_commit_val. apply Forall_forall. intros w Hw.
  apply list_elem_of_In in Hw. pose proof (find_none _ _ Hfind w Hw) as Hm.
  unfold is_missing in Hm. destruct (mem_doc st w.1); [done|discriminate].
Qed.

#[export] Instance mem_laws : FirestoreLaws mem_store.
Proof.
  split.
  - exact mem_get_sound.
  - exact mem_get_nodup.
  - exact mem_get_complete.
  - intros st b st' H. exists (ms_now st). by apply mem_commit_spec.
  - exact mem_commit_targets.
Qed.

End MemStore.
