(* ===== verification/Migration.v ===== *)
(** * The script [migrateConversations]

    [src/scripts/browser_migration.js], lines 4-50, over any store that
    implements the [Firestore] interface.  The async function runs in the
    monad [SE world fs_error]: [world] is the store and the console, the
    two awaited calls ([get], line 9, and [commit], line 41) read and
    replace the store, [console.log] appends a message, and the [forEach]
    callback (lines 15-38) threads the batch and the counter [updated]
    through [se_foldM].  [plan_updates] and [doc_logs] are the pure
    readings of the callback's two outputs (the object [updates] and the
    messages), and [forEach_body_spec] shows that the callback computes
    them. *)

From S2P Require Import Prelude JsValue Firestore.
Import JS FS.

Local Open Scope mig_scope.

Module Migration.

(** The console messages, by the line that prints them, each with the
    values it interpolates. *)
Inductive log_msg : Type :=
| LogStart                                            (* line 5 *)
| LogFound (n : nat)                                  (* line 10 *)
| LogParticipants (id : string) (seller buyer : value) (* line 25 *)
| LogUpdatedAt (id : string)                          (* line 30 *)
| LogDone (updated : nat)                             (* line 42 *)
| LogNothing                                          (* line 44 *)
| LogError (e : fs_error).                            (* line 48 *)

(** The collection the script migrates (line 9). *)
Definition conversations : string := "conversations".

(** [const needsParticipants = !Array.isArray(data.participants)] (line 17) *)
Definition needsParticipants (data : fields) : bool :=
  negb (is_array (prop data "participants")).

(** [const needsUpdatedAt = !data.updatedAt] (line 18) *)
Definition needsUpdatedAt (data : fields) : bool :=
  negb (truthy (prop data "updatedAt")).

(** The condition [needsParticipants && data.sellerId && data.buyerId] of
    line 23, returning the two ids when it holds. *)
Definition participants_pair (data : fields) : option (value * value) :=
  if needsParticipants data then
    match prop data "sellerId", prop data "buyerId" with
    | Some s, Some b => if truthy_v s && truthy_v b then Some (s, b) else None
    | _, _ => None
    end
  else None.

(** [data.createdAt || firebase.firestore.FieldValue.serverTimestamp()]
    (line 29) *)
Definition updatedAt_value (data : fields) : field_value :=
  js_or FVal (prop data "createdAt") FServerTimestamp.

(** The object [updates] the callback builds (lines 21-31). *)
Definition plan_updates (data : fields) : update_data :=
  if needsParticipants data || needsUpdatedAt data then
    let u1 :=
      match participants_pair data with
      | Some (s, b) => obj_set "participants" (FVal (VArray [s; b])) obj_empty
      | None => obj_empty
      end in
    if needsUpdatedAt data then obj_set "updatedAt" (updatedAt_value data) u1 else u1
  else obj_empty.

(** The messages the callback prints for a document (lines 25 and 30). *)
Definition doc_logs (doc : doc_snapshot) : list log_msg :=
  let data := ds_data doc in
  if needsParticipants data || needsUpdatedAt data then
    match participants_pair data with
    | Some (s, b) => [LogParticipants (ds_id doc) s b]
    | None => []
    end ++ (if needsUpdatedAt data then [LogUpdatedAt (ds_id doc)] else [])
  else [].

(** [Object.keys(updates).length > 0] (line 33) *)
Definition needs_write (data : fields) : bool :=
  Nat.ltb 0 (length (obj_keys (plan_updates data))).

Section Script.
Context {St : Type} `{!Firestore St}.

(** What the function reads and changes: the store and the console. *)
Record world : Type := World { w_store : St; w_console : list log_msg }.

Abbreviation M := (SE world fs_error).

(** [console.log(m)] *)
Definition console_log (m : log_msg) : M unit :=
  se_modify (fun w => World (w_store w) (w_console w ++ [m])).

(** [await firebase.firestore().collection(c).get()] *)
Definition await_get (c : string) : M (list doc_snapshot) :=
  fun w => (w, fs_get (w_store w) c).

(** [await batch.commit()]: the store is replaced only on success. *)
Definition await_commit (b : write_batch) : M unit :=
  fun w =>
    match fs_commit (w_store w) b with
    | Val st' => (World st' (w_console w), Val tt)
    | Exc e => (w, Exc e)
    end.

(** The [forEach] callback, lines 15-38, on the captured [batch] and
    [updated]. *)
Definition forEach_body (acc : write_batch * nat) (doc : doc_snapshot)
  : M (write_batch * nat) :=
  let '(batch, updated) := acc in
  let data := ds_data doc in
  if needsParticipants data || needsUpdatedAt data then
    let* updates :=
      match participants_pair data with
      | Some (s, b) =>
          let updates := obj_set "participants" (FVal (VArray [s; b])) obj_empty in
          console_log (LogParticipants (ds_id doc) s b) ;;
          se_ret updates
      | None => se_ret obj_empty
      end in
    let* updates :=
      if needsUpdatedAt data then
        let updates := obj_set "updatedAt" (updatedAt_value data) updates in
        console_log (LogUpdatedAt (ds_id doc)) ;;
        se_ret updates
      else se_ret updates in
    if Nat.ltb 0 (length (obj_keys updates)) then
      let* batch := se_lift (batch_update batch (ds_ref doc) updates) in
      se_ret (batch, S updated)
    else se_ret (batch, updated)
  else se_ret (batch, updated).

(** The body of the [try] block, lines 9-45. *)
Definition migration_body : M unit :=
  let* docs := await_get conversations in
  console_log (LogFound (length docs)) ;;
  let* acc := se_foldM forEach_body ([], 0) docs in
  let '(batch, updated) := acc in
  if Nat.ltb 0 updated then
    await_commit batch ;;
    console_log (LogDone updated)
  else console_log LogNothing.

(** [migrateConversations], lines 4-50: every exception is caught,
    logged, and the promise resolves normally. *)
Definition migrateConversations : M unit :=
  console_log LogStart ;;
  se_catch migration_body (fun e => console_log (LogError e)).

(** A run from a store with an empty console. *)
Definition run_migration (st : St) : world * exn fs_error unit :=
  migrateConversations (World st []).
End Script.

Arguments world St : clear implicits.

End Migration.
