(* ===== verification/Samples.v ===== *)
(** * Concrete stores

    Small in-memory stores on which the theorems of [MigrationProps] are
    applied: a collection that needs the backfill, one that is already
    migrated, one with a malformed document, an unavailable service, and
    a store whose write limit is below the number of documents to update,
    and a collection with a document that lacks [buyerId]. *)

From S2P Require Import Prelude JsValue Firestore MemStore Migration.
Import JS FS MemStore Migration.

Module Samples.

(** Needs both fields; [createdAt] is truthy. *)
Definition doc_a : fields :=
  <["sellerId" := VStr "S1"]> (<["buyerId" := VStr "B1"]>
  (<["createdAt" := VTimestamp 5 0]> ∅)).

(** Already migrated. *)
Definition doc_b : fields :=
  <["participants" := VArray [VStr "S2"; VStr "B2"]]>
  (<["updatedAt" := VTimestamp 7 0]> ∅).

(** An empty [sellerId] and no [createdAt]. *)
Definition doc_c : fields :=
  <["sellerId" := VStr ""]> (<["buyerId" := VStr "B3"]> ∅).

(** Only [updatedAt] is missing; [createdAt] is the falsy number 0. *)
Definition doc_d : fields :=
  <["participants" := VArray [VStr "S4"; VStr "B4"]]> (<["createdAt" := VNum 0]> ∅).

(** A [sellerId] that is an array. *)
Definition doc_bad : fields :=
  <["sellerId" := VArray [VStr "S5"]]> (<["buyerId" := VStr "B5"]>
  (<["updatedAt" := VNum 1]> ∅)).

Definition store_of (coll : gmap string fields) (online : bool) (limit : nat) : mem_store :=
  MemSt (<[conversations := coll]> ∅) (100, 0)%Z online limit.

Definition sample_coll : gmap string fields :=
  <["a" := doc_a]> (<["b" := doc_b]> (<["c" := doc_c]> (<["d" := doc_d]> ∅))).

Definition sample_store : mem_store := store_of sample_coll true 500.
Definition settled_store : mem_store := store_of (<["b" := doc_b]> ∅) true 500.
Definition bad_store : mem_store :=
  store_of (<["a" := doc_a]> (<["x" := doc_bad]> ∅)) true 500.
Definition offline_store : mem_store := store_of sample_coll false 500.
Definition limited_store : mem_store := store_of sample_coll true 1.

(** One document that needs only [updatedAt], and the same document after
    another client set its [updatedAt]. *)
Definition race_store : mem_store := store_of (<["d" := doc_d]> ∅) true 500.
Definition doc_d_touched : fields := <["updatedAt" := VTimestamp 50 0]> doc_d.

(** Needs [participants] but has no [buyerId]; [updatedAt] is set. *)
Definition doc_e : fields :=
  <["sellerId" := VStr "S6"]> (<["updatedAt" := VTimestamp 9 0]> ∅).

(** A conforming document beside an incomplete one. *)
Definition incomplete_store : mem_store :=
  store_of (<["b" := doc_b]> (<["e" := doc_e]> ∅)) true 500.

(** The documents a successful read of [st] returns. *)
Definition docs_of (st : mem_store) : list doc_snapshot :=
  match mem_get st conversations with
  | Val docs => docs
  | Exc _ => []
  end.

End Samples.
