(* ===== verification/MigrationProps.v ===== *)
(** * What the migration achieves

    The theorems about [Migration.migrateConversations], proved for every
    store that satisfies [FirestoreLaws]:
    - [spec_doc] is the backfill the specification describes, written as
      insertions into the field map; [plan_updates_refines] shows that the
      [updates] object the callback builds, once applied, is [spec_doc];
    - [forEach_body_spec] and the loop lemmas give the callback and the
      [forEach] loop in closed form: the staged batch [planned], the
      console output [doc_logs], and the first invalid document;
    - the body of the [try] block in closed form on each path, from which
      the properties follow: refinement of the backfill, idempotence,
      atomicity on every error, the no-op run, the console output and the
      reported count. *)

From S2P Require Import Prelude JsValue Firestore MemStore Migration Samples.
Import JS FS MemStore Migration Samples.

Local Open Scope mig_scope.

Module MigrationProps.

(** ** The abstract backfill *)

(** The document after the backfill, at server time [t]: [participants]
    becomes [[sellerId, buyerId]] when it is not an array and both ids are
    truthy; a falsy [updatedAt] becomes [createdAt] when that is truthy and
    the server time otherwise. *)
Definition spec_doc (t : timestamp) (data : fields) : fields :=
  let data1 :=
    match participants_pair data with
    | Some (s, b) => <["participants" := VArray [s; b]]> data
    | None => data
    end in
  if needsUpdatedAt data then
    <["updatedAt" := match prop data "createdAt" with
                     | Some v => if truthy_v v then v else VTimestamp t.1 t.2
                     | None => VTimestamp t.1 t.2
                     end]> data1
  else data1.

(** The target schema of the specification. *)
Definition schema_ok (data : fields) : bool :=
  is_array (prop data "participants") && truthy (prop data "updatedAt").

(** The batch the loop stages for a snapshot. *)
Definition planned (docs : list doc_snapshot) : write_batch :=
  (fun d => (ds_ref d, plan_updates (ds_data d)))
    <$> filter (fun d => needs_write (ds_data d) = true) docs.

(** [batch.update] accepts the update of this document. *)
Definition plan_valid (data : fields) : bool :=
  forallb (fun kv => valid_field_value kv.2) (plan_updates data).

(** The last console line is one of the two success messages of lines 42
    and 44. *)
Definition reported_success {St} (w : world St) : bool :=
  match last (w_console w) with
  | Some (LogDone _) | Some LogNothing => true
  | _ => false
  end.

(** ** The per-document plan *)

Lemma needs_write_plan data : needs_write data = false <-> plan_updates data = [].
Proof.
  unfold needs_write, obj_keys. rewrite Nat.ltb_ge, length_map.
  split; [|by intros ->]. destruct (plan_updates data); simpl; [done|lia].
Qed.

Lemma plan_valid_needs_write data :
  plan_valid data = false -> needs_write data = true.
Proof.
  unfold plan_valid. destruct (needs_write data) eqn:Hw; [done|].
  apply needs_write_plan in Hw as ->. done.
Qed.

(** A document that needs neither field gets no update and no message. *)
Lemma plan_nothing data :
  needsUpdatedAt data = false -> participants_pair data = None ->
  plan_updates data = [].
Proof.
  intros Hu Hp. unfold plan_updates. rewrite Hu, Hp, orb_false_r.
  by destruct (needsParticipants data).
Qed.

Lemma doc_logs_nothing doc :
  needsUpdatedAt (ds_data doc) = false -> participants_pair (ds_data doc) = None ->
  doc_logs doc = [].
Proof.
  intros Hu Hp. unfold doc_logs. rewrite Hu, Hp, orb_false_r.
  by destruct (needsParticipants (ds_data doc)).
Qed.

Lemma participants_pair_needs data s b :
  participants_pair data = Some (s, b) -> needsParticipants data = true.
Proof. unfold participants_pair. by destruct (needsParticipants data). Qed.

Lemma resolve_updatedAt_value t data :
  resolve t (updatedAt_value data)
  = match prop data "createdAt" with
    | Some v => if truthy_v v then v else VTimestamp t.1 t.2
    | None => VTimestamp t.1 t.2
    end.
Proof.
  unfold updatedAt_value, js_or. destruct (prop data "createdAt") as [v|]; [|done].
  by destruct (truthy_v v).
Qed.

(** The object [updates], applied to the document, is the backfill. *)
Lemma plan_updates_refines t data :
  apply_update t (plan_updates data) data = spec_doc t data.
Proof.
  unfold plan_updates, spec_doc.
  destruct (participants_pair data) as [[s b]|] eqn:Hp.
  - rewrite (participants_pair_needs _ _ _ Hp). simpl.
    destruct (needsUpdatedAt data); simpl; by rewrite ?resolve_updatedAt_value.
  - destruct (needsParticipants data || needsUpdatedAt data) eqn:Hn.
    + destruct (needsUpdatedAt data); simpl; by rewrite ?resolve_updatedAt_value.
    + apply orb_false_iff in Hn as [_ ->]. done.
Qed.

Lemma spec_doc_no_plan t data : plan_updates data = [] -> spec_doc t data = data.
Proof. intros Hp. by rewrite <- plan_updates_refines, Hp. Qed.

Lemma participants_pair_insert_updatedAt data v :
  participants_pair (<["updatedAt" := v]> data) = participants_pair data.
Proof. unfold participants_pair, needsParticipants, prop. by rewrite !lookup_insert_ne. Qed.

Lemma spec_doc_participants t data s b :
  participants_pair data = Some (s, b) ->
  prop (spec_doc t data) "participants" = Some (VArray [s; b]).
Proof.
  intros Hp. unfold spec_doc, prop. rewrite Hp.
  destruct (needsUpdatedAt data); rewrite ?lookup_insert_ne by done; apply lookup_insert_eq.
Qed.

Lemma spec_doc_participants_keep t data :
  participants_pair data = None ->
  prop (spec_doc t data) "participants" = prop data "participants".
Proof.
  intros Hp. unfold spec_doc, prop. rewrite Hp.
  destruct (needsUpdatedAt data); by rewrite ?lookup_insert_ne.
Qed.

Lemma spec_doc_updatedAt t data :
  needsUpdatedAt data = true ->
  prop (spec_doc t data) "updatedAt"
  = Some (match prop data "createdAt" with
          | Some v => if truthy_v v then v else VTimestamp t.1 t.2
          | None => VTimestamp t.1 t.2
          end).
Proof. intros Hu. unfold spec_doc. rewrite Hu. apply lookup_insert_eq. Qed.

Lemma spec_doc_updatedAt_keep t data :
  needsUpdatedAt data = false ->
  prop (spec_doc t data) "updatedAt" = prop data "updatedAt".
Proof.
  intros Hu. unfold spec_doc, prop. rewrite Hu.
  destruct (participants_pair data) as [[s b]|]; by rewrite ?lookup_insert_ne.
Qed.

(** A backfilled document needs nothing more. *)
Lemma spec_doc_settled t data :
  needsUpdatedAt (spec_doc t data) = false /\ participants_pair (spec_doc t data) = None.
Proof.
  split.
  - unfold needsUpdatedAt at 1. destruct (needsUpdatedAt data) eqn:Hu.
    + rewrite spec_doc_updatedAt by done. simpl.
      destruct (prop data "createdAt") as [v|]; [|done].
      by destruct (truthy_v v) eqn:Hv; rewrite ?Hv.
    + rewrite spec_doc_updatedAt_keep by done. unfold needsUpdatedAt in Hu.
      by destruct (truthy (prop data "updatedAt")).
  - destruct (participants_pair data) as [[s b]|] eqn:Hp.
    + unfold participants_pair at 1, needsParticipants.
      by rewrite (spec_doc_participants _ _ _ _ Hp).
    + unfold spec_doc. rewrite Hp.
      destruct (needsUpdatedAt data); by rewrite ?participants_pair_insert_updatedAt.
Qed.

#[export] Hint Resolve plan_nothing doc_logs_nothing plan_valid_needs_write : mig.

(** ** The callback and the loop *)

Section Loop.
Context {St : Type} `{!Firestore St}.

(** The callback of lines 15-38 prints [doc_logs] and stages
    [plan_updates] when it is not empty. *)
Lemma forEach_body_spec b n doc (w : world St) :
  forEach_body (b, n) doc w =
    let w' := World (w_store w) (w_console w ++ doc_logs doc) in
    if needs_write (ds_data doc) then
      match batch_update b (ds_ref doc) (plan_updates (ds_data doc)) with
      | Val b' => (w', Val (b', S n))
      | Exc e => (w', Exc e)
      end
    else (w', Val (b, n)).
Proof.
  destruct w as [st c].
  unfold forEach_body, needs_write, plan_updates, doc_logs.
  destruct (needsParticipants (ds_data doc) || needsUpdatedAt (ds_data doc));
    [|se_simpl; by rewrite app_nil_r].
  destruct (participants_pair (ds_data doc)) as [[s b0]|];
    destruct (needsUpdatedAt (ds_data doc)); se_simpl;
    rewrite ?app_nil_r, <- ?app_assoc; try done;
    destruct (batch_update _ _ _); done.
Qed.

Lemma planned_cons d docs :
  planned (d :: docs)
  = if needs_write (ds_data d) then (ds_ref d, plan_updates (ds_data d)) :: planned docs
    else planned docs.
Proof.
  unfold planned. destruct (needs_write (ds_data d)) eqn:Hw.
  - by rewrite filter_cons_True.
  - by rewrite filter_cons_False by congruence.
Qed.

Lemma planned_app docs1 docs2 : planned (docs1 ++ docs2) = planned docs1 ++ planned docs2.
Proof. unfold planned. by rewrite filter_app, fmap_app. Qed.

(** When [batch.update] accepts every update, the loop stages [planned],
    counts it, and prints the messages of every document in order. *)
Lemma loop_val docs b n (w : world St) :
  Forall (fun d => plan_valid (ds_data d) = true) docs ->
  se_foldM forEach_body (b, n) docs w =
    (World (w_store w) (w_console w ++ concat (doc_logs <$> docs)),
     Val (b ++ planned docs, n + length (planned docs))).
Proof.
  revert b n w. induction docs as [|d docs IH]; intros b n [st c] Hv; cbn [se_foldM].
  - unfold se_ret. simpl. by rewrite !app_nil_r, Nat.add_0_r.
  - apply Forall_cons in Hv as [Hd Hv].
    unfold se_bind. rewrite forEach_body_spec, planned_cons. cbn zeta.
    destruct (needs_write (ds_data d)); simpl.
    + rewrite batch_update_valid by done. rewrite IH by done. simpl.
      by rewrite <- !app_assoc, Nat.add_succ_r.
    + rewrite IH by done. simpl. by rewrite <- !app_assoc.
Qed.

(** The first document whose update [batch.update] rejects ends the
    loop with its exception, after its messages. *)
Lemma loop_invalid pre d post b n (w : world St) :
  Forall (fun d => plan_valid (ds_data d) = true) pre ->
  plan_valid (ds_data d) = false ->
  se_foldM forEach_body (b, n) (pre ++ d :: post) w =
    (World (w_store w) (w_console w ++ concat (doc_logs <$> pre) ++ doc_logs d),
     Exc (ErrInvalidArgument NestedArray)).
Proof.
  intros Hpre Hd. rewrite se_foldM_app. unfold se_bind at 1.
  rewrite loop_val by done. cbn [se_foldM]. unfold se_bind.
  rewrite forEach_body_spec, plan_valid_needs_write by done. cbn zeta.
  unfold batch_update. unfold plan_valid in Hd. rewrite Hd. simpl.
  by rewrite <- app_assoc.
Qed.

(** The loop never touches the store, and the counter [updated] is the
    number of staged writes, on every exit. *)
Lemma loop_inv docs st (w : world St) b n :
  w_store w = st -> n = length b ->
  match se_foldM forEach_body (b, n) docs w with
  | (w', Val acc) => w_store w' = st /\ acc.2 = length acc.1
  | (w', Exc _) => w_store w' = st
  end.
Proof.
  intros Hs Hn.
  apply (se_foldM_inv forEach_body (fun acc w => w_store w = st /\ acc.2 = length acc.1)
           (fun _ w => w_store w = st)); [| |by split].
  - intros [b0 n0] d w0 w1 [b1 n1] _ [Hs0 Hn0] Hf.
    rewrite forEach_body_spec in Hf. simpl in *.
    destruct (needs_write (ds_data d)); [destruct (batch_update _ _ _) eqn:Hb|];
      injection Hf as <- ?; subst; simpl; split; try done.
    apply batch_update_val in Hb as ->. rewrite length_app. simpl. lia.
  - intros [b0 n0] d w0 w1 e _ [Hs0 _] Hf.
    rewrite forEach_body_spec in Hf. simpl in *.
    destruct (needs_write (ds_data d)); [destruct (batch_update _ _ _)|];
      by injection Hf as <-.
Qed.

(** The loop only appends to the console. *)
Lemma loop_console docs (w : world St) acc :
  exists l, w_console (se_foldM forEach_body acc docs w).1 = w_console w ++ l.
Proof.
  assert (Hstep : forall a d (w0 w1 : world St) r, forEach_body a d w0 = (w1, r) ->
            w_console w1 = w_console w0 ++ doc_logs d).
  { intros [b0 n0] d w0 w1 r Hs. rewrite forEach_body_spec in Hs. simpl in Hs.
    destruct (needs_write (ds_data d)); try destruct (batch_update _ _ _);
      by injection Hs as <- _. }
  revert acc w. induction docs as [|d docs IH]; intros acc w; cbn [se_foldM].
  - exists []. by rewrite app_nil_r.
  - unfold se_bind. destruct (forEach_body acc d w) as [w1 [a|e]] eqn:Hf;
      pose proof (Hstep _ _ _ _ _ Hf) as Hl1; simpl.
    + destruct (IH a w1) as [l2 Hl2]. exists (doc_logs d ++ l2).
      by rewrite Hl2, Hl1, app_assoc.
    + by exists (doc_logs d).
Qed.

(** ** The body of the [try] block in closed form *)

Lemma body_get_exc st c e :
  fs_get st conversations = Exc e ->
  migration_body (World st c) = (World st c, Exc e).
Proof. intros Hg. unfold migration_body, await_get, se_bind. simpl. by rewrite Hg. Qed.

Lemma body_valid st c docs :
  fs_get st conversations = Val docs ->
  Forall (fun d => plan_valid (ds_data d) = true) docs ->
  migration_body (World st c) =
    (let c' := c ++ [LogFound (length docs)] ++ concat (doc_logs <$> docs) in
     if Nat.ltb 0 (length (planned docs)) then
       match fs_commit st (planned docs) with
       | Val st' => (World st' (c' ++ [LogDone (length (planned docs))]), Val tt)
       | Exc e => (World st c', Exc e)
       end
     else (World st (c' ++ [LogNothing]), Val tt)).
Proof.
  intros Hg Hv. unfold migration_body, await_get, console_log, se_modify.
  unfold se_bind at 1. simpl. rewrite Hg. unfold se_bind at 1 2. simpl.
  rewrite loop_val by done. simpl.
  destruct (Nat.ltb 0 (length (planned docs))); unfold se_bind, await_commit; simpl;
    [destruct (fs_commit st (planned docs))|]; simpl; by rewrite <- ?app_assoc.
Qed.

Lemma body_invalid st c pre d post :
  fs_get st conversations = Val (pre ++ d :: post) ->
  Forall (fun d => plan_valid (ds_data d) = true) pre ->
  plan_valid (ds_data d) = false ->
  migration_body (World st c) =
    (World st (c ++ [LogFound (length (pre ++ d :: post))]
                 ++ concat (doc_logs <$> pre) ++ doc_logs d),
     Exc (ErrInvalidArgument NestedArray)).
Proof.
  intros Hg Hpre Hd. unfold migration_body, await_get, console_log, se_modify.
  unfold se_bind at 1. simpl. rewrite Hg. unfold se_bind at 1 2. simpl.
  rewrite loop_invalid by done. simpl. by rewrite <- ?app_assoc.
Qed.

(** A normal completion of the body: the snapshot was read, every
    update was accepted, and either nothing was staged or the commit
    of [planned] succeeded. *)
Lemma body_val_inv st c w' :
  migration_body (World st c) = (w', Val tt) ->
  exists docs, fs_get st conversations = Val docs /\
    Forall (fun d => plan_valid (ds_data d) = true) docs /\
    let c' := c ++ [LogFound (length docs)] ++ concat (doc_logs <$> docs) in
    ((planned docs = [] /\ w' = World st (c' ++ [LogNothing])) \/
     (planned docs <> [] /\ fs_commit st (planned docs) = Val (w_store w') /\
      w_console w' = c' ++ [LogDone (length (planned docs))])).
Proof.
  destruct (fs_get st conversations) as [docs|e] eqn:Hg;
    [|by rewrite (body_get_exc _ _ _ Hg)].
  destruct (list_first_failure (fun d => plan_valid (ds_data d)) docs)
    as [Hv|(pre & d & post & -> & Hpre & Hd)];
    [|by rewrite (body_invalid _ _ _ _ _ Hg Hpre Hd)].
  rewrite (body_valid _ _ _ Hg Hv). intros Hb. exists docs. split_and!; [done|done|].
  destruct (planned docs) as [|w ws] eqn:Hp; simpl in Hb.
  - left. split; [done|]. by injection Hb.
  - right. destruct (fs_commit st (w :: ws)) eqn:Hc; [|done].
    injection Hb as <-. by split_and!.
Qed.

Lemma planned_nil docs :
  Forall (fun d => needs_write (ds_data d) = false) docs -> planned docs = [].
Proof.
  intros Hw. unfold planned. rewrite filter_none; [done|].
  eapply Forall_impl; [exact Hw|]. simpl. congruence.
Qed.

Lemma concat_logs_nil docs :
  Forall (fun d => doc_logs d = []) docs -> concat (doc_logs <$> docs) = [].
Proof. induction 1 as [|d docs Hd _ IH]; [done|]. rewrite fmap_cons. simpl. by rewrite Hd. Qed.

(** A snapshot in which no document needs anything: nothing is staged,
    nothing is committed, and only the count and "nothing to do" are
    printed. *)
Lemma body_settled st c docs :
  fs_get st conversations = Val docs ->
  Forall (fun d => needsUpdatedAt (ds_data d) = false /\ participants_pair (ds_data d) = None) docs ->
  migration_body (World st c) = (World st (c ++ [LogFound (length docs); LogNothing]), Val tt).
Proof.
  intros Hg Hs.
  assert (Hp : planned docs = []).
  { apply planned_nil. eapply Forall_impl; [exact Hs|]. intros d [Hu Hp].
    apply needs_write_plan. by apply plan_nothing. }
  assert (Hl : concat (doc_logs <$> docs) = []).
  { apply concat_logs_nil. eapply Forall_impl; [exact Hs|]. intros d [Hu Hp'].
    by apply doc_logs_nothing. }
  rewrite (body_valid _ _ _ Hg); cbn zeta.
  - rewrite Hp, Hl. simpl. by rewrite <- app_assoc.
  - eapply Forall_impl; [exact Hs|]. intros d [Hu Hp'].
    unfold plan_valid. by rewrite plan_nothing.
Qed.

(** The body leaves the store as it found it whenever it throws. *)
Lemma body_exc_store st c w' e :
  migration_body (World st c) = (w', Exc e) -> w_store w' = st.
Proof.
  destruct (fs_get st conversations) as [docs|e'] eqn:Hg;
    [|rewrite (body_get_exc _ _ _ Hg); by intros [= <- _]].
  destruct (list_first_failure (fun d => plan_valid (ds_data d)) docs)
    as [Hv|(pre & d & post & -> & Hpre & Hd)];
    [|rewrite (body_invalid _ _ _ _ _ Hg Hpre Hd); by intros [= <- _]].
  rewrite (body_valid _ _ _ Hg Hv). cbn zeta.
  destruct (Nat.ltb _ _); [destruct (fs_commit _ _)|]; by intros [= <- _].
Qed.
End Loop.

(** ** The batch [planned] against the documents of the snapshot *)

Lemma planned_refs_notin r docs :
  r ∉ ds_ref <$> docs -> Forall (fun w => w.1 <> r) (planned docs).
Proof.
  intros Hr. apply Forall_forall. intros w Hw.
  apply list_elem_of_fmap in Hw as (x & -> & Hx).
  apply list_elem_of_filter in Hx as [_ Hx]. simpl. intros <-.
  apply Hr. by apply list_elem_of_fmap_2.
Qed.

(** The one document of the snapshot with reference [ds_ref d] receives
    its own update, if any. *)
Lemma planned_effect_in t docs d o :
  NoDup (ds_ref <$> docs) -> d ∈ docs ->
  batch_effect t (planned docs) (ds_ref d) o = apply_update t (plan_updates (ds_data d)) <$> o.
Proof.
  intros Hnd (l1 & l2 & ->)%list_elem_of_split.
  rewrite fmap_app, fmap_cons in Hnd.
  apply NoDup_app in Hnd as (_ & Hsep & Hnd2). apply NoDup_cons in Hnd2 as [Hn2 _].
  assert (Hn1 : ds_ref d ∉ ds_ref <$> l1).
  { intros Hin. apply (Hsep _ Hin). by left. }
  rewrite planned_app, planned_cons, batch_effect_app.
  rewrite (batch_effect_other t (planned l1)) by by apply planned_refs_notin.
  destruct (needs_write (ds_data d)) eqn:Hw.
  - unfold batch_effect at 1. simpl. rewrite decide_True by done.
    fold (batch_effect t (planned l2) (ds_ref d) (apply_update t (plan_updates (ds_data d)) <$> o)).
    by apply batch_effect_other, planned_refs_notin.
  - apply needs_write_plan in Hw as ->. rewrite batch_effect_other by by apply planned_refs_notin.
    by destruct o.
Qed.

Section WithLaws.
Context {St : Type} `{FirestoreLaws St}.

Lemma get_refs_nodup st docs :
  fs_get st conversations = Val docs -> NoDup (ds_ref <$> docs).
Proof.
  intros Hg. assert (Hrefs : ds_ref <$> docs = DocRef conversations <$> (ds_id <$> docs)).
  { rewrite <- list_fmap_compose. apply list_fmap_ext. intros i d Hi.
    pose proof (get_sound _ _ _ Hg) as Hs. rewrite Forall_forall in Hs.
    destruct (Hs d) as [Hr _]; [by eapply list_elem_of_lookup_2|]. done. }
  rewrite Hrefs. apply NoDup_fmap_2; [intros ?? [=]; done|].
  exact (get_nodup _ _ _ Hg).
Qed.

(** Committing [planned] performs the backfill on the migrated
    collection and nothing elsewhere. *)
Lemma planned_effect st docs t r :
  fs_get st conversations = Val docs ->
  batch_effect t (planned docs) r (fs_doc st r)
  = if decide (ref_coll r = conversations) then spec_doc t <$> fs_doc st r else fs_doc st r.
Proof.
  intros Hg. pose proof (get_sound _ _ _ Hg) as Hs. rewrite Forall_forall in Hs.
  destruct (decide (r ∈ ds_ref <$> docs)) as [Hin|Hnin].
  - apply list_elem_of_fmap in Hin as (d & -> & Hd).
    rewrite (planned_effect_in _ _ _ _ (get_refs_nodup _ _ Hg) Hd).
    destruct (Hs d Hd) as [Hr Hf]. rewrite Hf, Hr, decide_True by done.
    simpl. by rewrite plan_updates_refines.
  - rewrite batch_effect_other by by apply planned_refs_notin.
    case_decide as Hc; [|done].
    destruct (fs_doc st r) as [f|] eqn:Hf; [|done]. exfalso.
    destruct r as [c id]. simpl in Hc. subst c.
    destruct (get_complete _ _ _ _ _ Hg Hf) as (d & Hd & Hid).
    apply Hnin, list_elem_of_fmap. exists d. split; [|done].
    destruct (Hs d Hd) as [-> _]. by rewrite Hid.
Qed.

(** The backfill performed by a normal completion of the body, at one
    server time for the whole batch. *)
Lemma body_backfill st c w' :
  migration_body (World st c) = (w', Val tt) ->
  exists t, forall r, fs_doc (w_store w') r =
    if decide (ref_coll r = conversations) then spec_doc t <$> fs_doc st r else fs_doc st r.
Proof.
  intros (docs & Hg & _ & [[Hp ->]|(_ & Hc & _)])%body_val_inv.
  - exists (0%Z, 0%Z). intros r. simpl.
    by rewrite <- (planned_effect st docs (0%Z, 0%Z) r Hg), Hp.
  - destruct (commit_spec _ _ _ Hc) as [t Ht]. exists t. intros r.
    rewrite Ht. by apply planned_effect.
Qed.
End WithLaws.

(** ** The whole function *)

Section Run.
Context {St : Type} `{!Firestore St}.

(** A run prints the start message, then either completes the body and
    reports success, or reports the body's exception and keeps the
    store. *)
Lemma run_body (st : St) :
  run_migration st =
    match migration_body (World st [LogStart]) with
    | (w1, Val _) => (w1, Val tt)
    | (w1, Exc e) => (World (w_store w1) (w_console w1 ++ [LogError e]), Val tt)
    end.
Proof.
  unfold run_migration, migrateConversations, console_log, se_modify, se_bind, se_catch.
  simpl. by destruct (migration_body (World st [LogStart])) as [[] [[]|e]].
Qed.

Lemma run_cases (st : St) w' r :
  run_migration st = (w', r) ->
  r = Val tt /\
  ((reported_success w' = true /\ migration_body (World st [LogStart]) = (w', Val tt)) \/
   (reported_success w' = false /\ exists w1 e,
      migration_body (World st [LogStart]) = (w1, Exc e) /\
      w' = World st (w_console w1 ++ [LogError e]))).
Proof.
  unfold run_migration, migrateConversations, console_log, se_modify, se_bind, se_catch.
  simpl. destruct (migration_body (World st [LogStart])) as [w1 [[]|e]] eqn:Hb;
    intros [= <- <-]; (split; [done|]).
  - left. split; [|done].
    destruct (body_val_inv _ _ _ Hb) as (docs & _ & _ & [[_ ->]|(_ & _ & Hc)]);
      unfold reported_success; [cbn [w_console]|rewrite Hc]; by rewrite last_snoc.
  - right. rewrite (body_exc_store _ _ _ _ Hb). unfold reported_success. cbn [w_console].
    rewrite last_snoc. split; [done|]. by exists w1, e.
Qed.

(** A failed commit of a valid batch ends the run with the error,
    after every per-document message, and keeps the store. *)
Lemma run_commit_exc (st : St) docs e :
  fs_get st conversations = Val docs ->
  Forall (fun d => plan_valid (ds_data d) = true) docs ->
  planned docs <> [] -> fs_commit st (planned docs) = Exc e ->
  run_migration st =
    (World st ([LogStart; LogFound (length docs)] ++ concat (doc_logs <$> docs) ++ [LogError e]),
     Val tt).
Proof.
  intros Hg Hv Hp Hc. rewrite run_body, (body_valid _ _ _ Hg Hv). cbn zeta.
  destruct (planned docs) as [|w ws] eqn:Hpl; [done|]. simpl. rewrite Hc. simpl.
  by rewrite <- ?app_assoc.
Qed.
End Run.

Lemma schema_ok_settled data :
  schema_ok data = true -> needsUpdatedAt data = false /\ participants_pair data = None.
Proof.
  unfold schema_ok, needsUpdatedAt, participants_pair, needsParticipants.
  intros [-> ->]%andb_prop. done.
Qed.

Lemma pair_none_seller data :
  truthy (prop data "sellerId") = false -> participants_pair data = None.
Proof.
  unfold participants_pair. intros Hs. destruct (needsParticipants data); [|done].
  destruct (prop data "sellerId") as [v|]; [|done]. simpl in Hs. rewrite Hs.
  by destruct (prop data "buyerId").
Qed.

Lemma plan_nested_invalid data xs :
  needsParticipants data = true -> prop data "sellerId" = Some (VArray xs) ->
  truthy (prop data "buyerId") = true -> plan_valid data = false.
Proof.
  intros Hn Hs Hb. unfold plan_valid, plan_updates, participants_pair.
  rewrite Hn, Hs. destruct (prop data "buyerId") as [b|]; [|done]. simpl in Hb |- *.
  rewrite Hb. by destruct (needsUpdatedAt data).
Qed.

Section WithLawsRun.
Context {St : Type} `{FirestoreLaws St}.

(** Each document of the migrated collection after a successful run. *)
Lemma run_doc_backfill (st : St) w' r :
  run_migration st = (w', r) -> reported_success w' = true ->
  exists t, forall id f, fs_doc st (DocRef conversations id) = Some f ->
    fs_doc (w_store w') (DocRef conversations id) = Some (spec_doc t f).
Proof.
  intros Hrun Hok. destruct (run_cases _ _ _ Hrun) as [_ [[_ Hb]|[Hko _]]]; [|congruence].
  destruct (body_backfill _ _ _ Hb) as [t Ht]. exists t. intros id f Hf.
  by rewrite Ht, decide_True, Hf.
Qed.
End WithLawsRun.

(** ** Properties of the migration *)

Section Properties.
Context {St : Type} `{FirestoreLaws St}.

(** C1. Refinement: when a run reports success, every document of
    [conversations] has been replaced by its backfill [spec_doc], all at
    one server time, and no other document has changed. *)
Theorem run_refines_backfill (st : St) w' r :
  run_migration st = (w', r) -> reported_success w' = true ->
  exists t, forall ref, fs_doc (w_store w') ref =
    if decide (ref_coll ref = conversations) then spec_doc t <$> fs_doc st ref
    else fs_doc st ref.
Proof.
  intros Hrun Hok. destruct (run_cases _ _ _ Hrun) as [_ [[_ Hb]|[Hko _]]]; [|congruence].
  exact (body_backfill _ _ _ Hb).
Qed.

(** C2. Idempotence: after a run that reports success, a second run
    whose read succeeds stages nothing, commits nothing, leaves the store
    as it is and prints only the start, the count and "nothing to do". *)
Theorem run_idempotent (st : St) w1 r1 docs2 :
  run_migration st = (w1, r1) -> reported_success w1 = true ->
  fs_get (w_store w1) conversations = Val docs2 ->
  run_migration (w_store w1)
  = (World (w_store w1) [LogStart; LogFound (length docs2); LogNothing], Val tt).
Proof.
  intros Hrun Hok Hg2. destruct (run_cases _ _ _ Hrun) as [_ [[_ Hb]|[Hko _]]]; [|congruence].
  destruct (body_backfill _ _ _ Hb) as [t Ht].
  rewrite run_body, (body_settled _ _ _ Hg2); [done|].
  eapply Forall_impl; [exact (get_sound _ _ _ Hg2)|]. intros d [Hr Hd].
  rewrite Ht, Hr, decide_True in Hd by done.
  destruct (fs_doc st _) as [f|]; simplify_eq/=. rewrite <- Hd. apply spec_doc_settled.
Qed.

(** C3. Failure is all-or-nothing and swallowed: when a run does not
    report success, its promise still resolves normally, the store is the
    one it started from (whether the read, [batch.update] or the commit
    failed), and the last console line is the error. *)
Theorem run_failure_atomic (st : St) w' r :
  run_migration st = (w', r) -> reported_success w' = false ->
  r = Val tt /\ w_store w' = st /\ exists e, last (w_console w') = Some (LogError e).
Proof.
  intros Hrun Hko. destruct (run_cases _ _ _ Hrun) as [-> [[Hok _]|[_ (w1 & e & _ & ->)]]];
    [congruence|].
  split_and!; [done|done|]. exists e. simpl. by rewrite last_snoc.
Qed.

(** C4. The function never rejects: [migrateConversations] always
    completes normally, whatever the store does. *)
Theorem migrateConversations_resolves (w : world St) :
  exists w', migrateConversations w = (w', Val tt).
Proof.
  unfold migrateConversations, console_log, se_modify, se_bind, se_catch.
  destruct (migration_body _) as [w1 [[]|e]]; by eexists.
Qed.

(** C5. No-op success: when every document already has an array
    [participants] and a truthy [updatedAt], the run issues no write,
    keeps the store and reports "nothing to do". *)
Theorem run_noop (st : St) docs :
  fs_get st conversations = Val docs ->
  Forall (fun d => schema_ok (ds_data d) = true) docs ->
  run_migration st = (World st [LogStart; LogFound (length docs); LogNothing], Val tt).
Proof.
  intros Hg Hs. rewrite run_body, (body_settled _ _ _ Hg); [done|].
  eapply Forall_impl; [exact Hs|]. intros d. apply schema_ok_settled.
Qed.

(** C6. Selective update: for a document whose [participants] is
    already an array and whose [updatedAt] is falsy, the update staged
    for it sets exactly [updatedAt], to [createdAt || serverTimestamp()]. *)
Theorem plan_selective data :
  is_array (prop data "participants") = true -> needsUpdatedAt data = true ->
  plan_updates data = [("updatedAt", updatedAt_value data)].
Proof.
  intros Ha Hu. unfold plan_updates, participants_pair, needsParticipants.
  by rewrite Ha, Hu.
Qed.

(** C7. Ordering: a document that needs [participants] and has truthy
    [sellerId = s] and [buyerId = b] ends a successful run with
    [participants = [s, b]], seller first. *)
Theorem run_participants_order (st : St) w' r id f s b :
  run_migration st = (w', r) -> reported_success w' = true ->
  fs_doc st (DocRef conversations id) = Some f ->
  needsParticipants f = true -> prop f "sellerId" = Some s -> prop f "buyerId" = Some b ->
  truthy_v s = true -> truthy_v b = true ->
  exists f', fs_doc (w_store w') (DocRef conversations id) = Some f' /\
             prop f' "participants" = Some (VArray [s; b]).
Proof.
  intros Hrun Hok Hf Hn Hs Hb Hts Htb.
  destruct (run_doc_backfill _ _ _ Hrun Hok) as [t Ht].
  eexists. split; [exact (Ht _ _ Hf)|]. apply spec_doc_participants.
  unfold participants_pair. by rewrite Hn, Hs, Hb, Hts, Htb.
Qed.

(** C8. Silent skip: a document whose [sellerId] is missing or falsy
    (the empty string included) keeps its [participants] field, whatever
    it was, through a successful run. *)
Theorem run_skips_incomplete (st : St) w' r id f :
  run_migration st = (w', r) -> reported_success w' = true ->
  fs_doc st (DocRef conversations id) = Some f ->
  truthy (prop f "sellerId") = false ->
  exists f', fs_doc (w_store w') (DocRef conversations id) = Some f' /\
             prop f' "participants" = prop f "participants".
Proof.
  intros Hrun Hok Hf Hs. destruct (run_doc_backfill _ _ _ Hrun Hok) as [t Ht].
  eexists. split; [exact (Ht _ _ Hf)|]. by apply spec_doc_participants_keep, pair_none_seller.
Qed.

(** C9. [updatedAt]: after a successful run, every document whose
    [updatedAt] was falsy holds its truthy [createdAt], or else the one
    server time of the commit, the same for every such document. *)
Theorem run_updatedAt (st : St) w' r :
  run_migration st = (w', r) -> reported_success w' = true ->
  exists t, forall id f, fs_doc st (DocRef conversations id) = Some f ->
    needsUpdatedAt f = true ->
    exists f', fs_doc (w_store w') (DocRef conversations id) = Some f' /\
      prop f' "updatedAt" = Some (match prop f "createdAt" with
                                  | Some v => if truthy_v v then v else VTimestamp t.1 t.2
                                  | None => VTimestamp t.1 t.2
                                  end).
Proof.
  intros Hrun Hok. destruct (run_doc_backfill _ _ _ Hrun Hok) as [t Ht].
  exists t. intros id f Hf Hu. eexists. split; [exact (Ht _ _ Hf)|].
  by apply spec_doc_updatedAt.
Qed.

(** C10. Console and count: a successful run prints the start, the
    number of documents read, the per-document messages in snapshot
    order, and "done" with the number of documents staged (never more
    than were read), or "nothing to do" when none was. *)
Theorem run_console (st : St) docs w' r :
  fs_get st conversations = Val docs ->
  run_migration st = (w', r) -> reported_success w' = true ->
  w_console w' = [LogStart; LogFound (length docs)] ++ concat (doc_logs <$> docs) ++
    [if bool_decide (planned docs = []) then LogNothing else LogDone (length (planned docs))]
  /\ length (planned docs) <= length docs.
Proof.
  intros Hg Hrun Hok. destruct (run_cases _ _ _ Hrun) as [_ [[_ Hb]|[Hko _]]]; [|congruence].
  destruct (body_val_inv _ _ _ Hb) as (docs' & Hg' & _ & Hcases).
  rewrite Hg in Hg'. injection Hg' as <-.
  split; [|unfold planned; rewrite length_fmap; apply length_filter_le].
  destruct Hcases as [[Hp ->]|(Hp & _ & ->)].
  - rewrite Hp, bool_decide_true by done. simpl. by rewrite <- ?app_assoc.
  - rewrite bool_decide_false by done. simpl. by rewrite <- ?app_assoc.
Qed.

(** C11. One malformed document aborts everything: when a document that
    needs [participants] has an array as [sellerId] and a truthy
    [buyerId], [batch.update] rejects the nested array, no document is
    written (the valid ones included) and the run ends with the error. *)
Theorem run_nested_array_aborts (st : St) docs d xs w' r :
  fs_get st conversations = Val docs -> d ∈ docs ->
  needsParticipants (ds_data d) = true ->
  prop (ds_data d) "sellerId" = Some (VArray xs) ->
  truthy (prop (ds_data d) "buyerId") = true ->
  run_migration st = (w', r) ->
  w_store w' = st /\ last (w_console w') = Some (LogError (ErrInvalidArgument NestedArray)).
Proof.
  intros Hg Hd Hn Hs Hb. rewrite run_body.
  destruct (list_first_failure (fun d => plan_valid (ds_data d)) docs)
    as [Hv|(pre & d' & post & -> & Hpre & Hd')].
  - rewrite Forall_forall in Hv. specialize (Hv d Hd).
    by rewrite (plan_nested_invalid _ _ Hn Hs Hb) in Hv.
  - rewrite (body_invalid _ _ _ _ _ Hg Hpre Hd'). intros [= <- _].
    split; [done|]. cbn [w_console]. by rewrite !app_comm_cons, last_snoc.
Qed.

(** C12. A rejected commit is logged after the per-document messages,
    which announce updates that were never written: the store is
    unchanged and the run ends with the commit's error. *)
Theorem run_commit_failure (st : St) docs e :
  fs_get st conversations = Val docs ->
  Forall (fun d => plan_valid (ds_data d) = true) docs ->
  planned docs <> [] -> fs_commit st (planned docs) = Exc e ->
  run_migration st =
    (World st ([LogStart; LogFound (length docs)] ++ concat (doc_logs <$> docs) ++ [LogError e]),
     Val tt).
Proof. exact (run_commit_exc st docs e). Qed.
End Properties.

(** ** On the in-memory store *)

(** C13. No progress beyond the write limit: when the documents to update
    outnumber the writes a commit accepts, every run fails at the commit
    with the limit error and leaves the store unchanged, so re-running the
    script, as the specification recommends after a failure, never
    migrates anything. *)
Theorem write_limit_blocks (st : mem_store) docs :
  mem_get st conversations = Val docs ->
  Forall (fun d => plan_valid (ds_data d) = true) docs ->
  ms_max_writes st < length (planned docs) ->
  run_migration st =
    (World st ([LogStart; LogFound (length docs)] ++ concat (doc_logs <$> docs)
               ++ [LogError (ErrInvalidArgument TooManyWrites)]), Val tt)
  /\ forall k, Nat.iter k (fun s => w_store (run_migration s).1) st = st.
Proof.
  intros Hg Hv Hlim.
  assert (Hc : mem_commit st (planned docs) = Exc (ErrInvalidArgument TooManyWrites)).
  { unfold mem_commit. unfold mem_get in Hg. destruct (ms_online st); [|done].
    simpl. by rewrite (proj2 (Nat.ltb_lt _ _) Hlim). }
  assert (Hp : planned docs <> []) by (intros Hp; rewrite Hp in Hlim; simpl in Hlim; lia).
  pose proof (run_commit_exc st docs _ Hg Hv Hp Hc) as Hrun.
  split; [done|]. induction k as [|k IH]; [done|]. simpl. by rewrite IH, Hrun.
Qed.

(** ** Witnesses *)

Lemma run_refines_backfill_witness :
  run_migration sample_store = ((run_migration sample_store).1, (run_migration sample_store).2)
  /\ reported_success (run_migration sample_store).1 = true
  /\ exists t, forall ref, fs_doc (w_store (run_migration sample_store).1) ref =
       if decide (ref_coll ref = conversations) then spec_doc t <$> fs_doc sample_store ref
       else fs_doc sample_store ref.
Proof.
  split; [vm_compute; reflexivity|]. split; [vm_compute; reflexivity|].
  apply (run_refines_backfill sample_store _ (run_migration sample_store).2);
    vm_compute; reflexivity.
Defined.

Lemma run_idempotent_witness :
  reported_success (run_migration sample_store).1 = true
  /\ fs_get (w_store (run_migration sample_store).1) conversations
       = Val (docs_of (w_store (run_migration sample_store).1))
  /\ run_migration (w_store (run_migration sample_store).1)
     = (World (w_store (run_migration sample_store).1)
          [LogStart; LogFound (length (docs_of (w_store (run_migration sample_store).1))); LogNothing],
        Val tt).
Proof.
  split; [vm_compute; reflexivity|]. split; [vm_compute; reflexivity|].
  apply (run_idempotent sample_store _ (run_migration sample_store).2);
    vm_compute; reflexivity.
Defined.

Lemma run_failure_atomic_witness :
  reported_success (run_migration offline_store).1 = false
  /\ (run_migration offline_store).2 = Val tt
  /\ w_store (run_migration offline_store).1 = offline_store
  /\ exists e, last (w_console (run_migration offline_store).1) = Some (LogError e).
Proof.
  split; [vm_compute; reflexivity|].
  apply (run_failure_atomic offline_store); vm_compute; reflexivity.
Defined.

Lemma run_noop_witness :
  Forall (fun d => schema_ok (ds_data d) = true) (docs_of settled_store)
  /\ run_migration settled_store
     = (World settled_store [LogStart; LogFound (length (docs_of settled_store)); LogNothing], Val tt).
Proof.
  split; [vm_compute; repeat constructor|].
  apply run_noop; [vm_compute; reflexivity|vm_compute; repeat constructor].
Defined.

Lemma plan_selective_witness :
  needsUpdatedAt doc_d = true
  /\ plan_updates doc_d = [("updatedAt", updatedAt_value doc_d)].
Proof.
  split; [reflexivity|]. apply plan_selective; reflexivity.
Defined.

Lemma run_participants_order_witness :
  reported_success (run_migration sample_store).1 = true
  /\ exists f', fs_doc (w_store (run_migration sample_store).1) (DocRef conversations "a") = Some f'
       /\ prop f' "participants" = Some (VArray [VStr "S1"; VStr "B1"]).
Proof.
  split; [vm_compute; reflexivity|].
  apply (run_participants_order sample_store _ (run_migration sample_store).2 "a" doc_a);
    vm_compute; reflexivity.
Defined.

Lemma run_skips_incomplete_witness :
  truthy (prop doc_c "sellerId") = false
  /\ exists f', fs_doc (w_store (run_migration sample_store).1) (DocRef conversations "c") = Some f'
       /\ prop f' "participants" = prop doc_c "participants".
Proof.
  split; [reflexivity|].
  apply (run_skips_incomplete sample_store _ (run_migration sample_store).2 "c" doc_c);
    vm_compute; reflexivity.
Defined.

Lemma run_updatedAt_witness :
  reported_success (run_migration sample_store).1 = true
  /\ exists t, forall id f, fs_doc sample_store (DocRef conversations id) = Some f ->
      needsUpdatedAt f = true ->
      exists f', fs_doc (w_store (run_migration sample_store).1) (DocRef conversations id) = Some f' /\
        prop f' "updatedAt" = Some (match prop f "createdAt" with
                                    | Some v => if truthy_v v then v else VTimestamp t.1 t.2
                                    | None => VTimestamp t.1 t.2
                                    end).
Proof.
  split; [vm_compute; reflexivity|].
  apply (run_updatedAt sample_store _ (run_migration sample_store).2); vm_compute; reflexivity.
Defined.

Lemma run_console_witness :
  reported_success (run_migration sample_store).1 = true
  /\ w_console (run_migration sample_store).1
     = [LogStart; LogFound (length (docs_of sample_store))] ++ concat (doc_logs <$> docs_of sample_store) ++
       [if bool_decide (planned (docs_of sample_store) = []) then LogNothing
        else LogDone (length (planned (docs_of sample_store)))]
  /\ length (planned (docs_of sample_store)) <= length (docs_of sample_store).
Proof.
  split; [vm_compute; reflexivity|].
  apply (run_console sample_store _ _ (run_migration sample_store).2); vm_compute; reflexivity.
Defined.

Lemma run_nested_array_aborts_witness :
  prop doc_bad "sellerId" = Some (VArray [VStr "S5"])
  /\ w_store (run_migration bad_store).1 = bad_store
  /\ last (w_console (run_migration bad_store).1) = Some (LogError (ErrInvalidArgument NestedArray)).
Proof.
  split; [reflexivity|].
  apply (run_nested_array_aborts bad_store (docs_of bad_store) (DocSnap "x" (DocRef conversations "x") doc_bad)
           [VStr "S5"] _ (run_migration bad_store).2);
    [vm_compute; reflexivity|vm_compute; by repeat constructor|reflexivity|reflexivity|reflexivity|
     vm_compute; reflexivity].
Defined.

Lemma run_commit_failure_witness :
  fs_commit limited_store (planned (docs_of limited_store)) = Exc (ErrInvalidArgument TooManyWrites)
  /\ run_migration limited_store =
      (World limited_store ([LogStart; LogFound (length (docs_of limited_store))]
                            ++ concat (doc_logs <$> docs_of limited_store)
                            ++ [LogError (ErrInvalidArgument TooManyWrites)]), Val tt).
Proof.
  split; [vm_compute; reflexivity|].
  apply run_commit_failure;
    [vm_compute; reflexivity|vm_compute; repeat constructor|vm_compute; discriminate|vm_compute; reflexivity].
Defined.

Lemma write_limit_blocks_witness :
  ms_max_writes limited_store < length (planned (docs_of limited_store))
  /\ forall k, Nat.iter k (fun s => w_store (run_migration s).1) limited_store = limited_store.
Proof.
  split; [vm_compute; lia|].
  apply (write_limit_blocks limited_store (docs_of limited_store));
    [vm_compute; reflexivity|vm_compute; repeat constructor|vm_compute; lia].
Defined.

End MigrationProps.
