(* ===== verification/Interleaving.v ===== *)
(** * The script among other clients of the store

    The store is remote: between the two awaits of [migrateConversations]
    (line 9 and line 41) other clients may write it.  Everything between
    the two awaits (lines 10-40: the count, the [forEach] loop, the guard)
    runs synchronously in one JavaScript turn and reads only the snapshot,
    so the script is a machine of four phases whose steps are its start,
    the answer to [get] (followed by the whole loop), and the answer to
    [commit].  [sstep] is the script's own step relation; [step] adds the
    writes of other clients, a relation [env] given as a parameter.
    - [run_reaches] and [sstep_final_unique]: the script's steps alone
      end in exactly the configuration [run_migration] computes, and in
      no other finished one;
    - [script_steps_bounded]: any interleaving with writes of other
      clients contains at most three steps of the script;
    - [reachable_inv]: an invariant of every reachable configuration, by
      rule induction.
    What other writers do to the updates a run commits is in [Updates]
    ([lost_update]) and [Isolation]. *)

From S2P Require Import Prelude JsValue Firestore MemStore Migration Samples MigrationProps.
Import JS FS MemStore Migration Samples MigrationProps.

Local Open Scope mig_scope.

Module Interleaving.

(** Where the async function stands. *)
Inductive phase : Type :=
| PStart
| PAwaitGet
| PAwaitCommit (batch : write_batch) (updated : nat)
| PDone.

(** Writes of other clients on the in-memory store: a [set] of a whole
    document, or a [delete]. *)
Inductive mem_env : mem_store -> mem_store -> Prop :=
| env_set st c id f :
    mem_env st (MemSt (<[c := <[id := f]> (ms_coll (ms_db st) c)]> (ms_db st))
                      (ms_now st) (ms_online st) (ms_max_writes st))
| env_delete st c id :
    mem_env st (MemSt (<[c := delete id (ms_coll (ms_db st) c)]> (ms_db st))
                      (ms_now st) (ms_online st) (ms_max_writes st)).

Section Machine.
Context {St : Type} `{!Firestore St}.

Record config : Type := Cfg { c_phase : phase; c_store : St; c_console : list log_msg }.

(** The synchronous part of the answer to [get]: lines 10-15 and the loop,
    on the snapshot [docs]. *)
Definition after_get (st : St) (c : list log_msg) (docs : list doc_snapshot)
  : world St * exn fs_error (write_batch * nat) :=
  se_foldM forEach_body ([], 0) docs (World st (c ++ [LogFound (length docs)])).

(** The script's own steps. *)
Inductive sstep : config -> config -> Prop :=
| s_start st c :
    sstep (Cfg PStart st c) (Cfg PAwaitGet st (c ++ [LogStart]))
| s_get_exc st c e :
    fs_get st conversations = Exc e ->
    sstep (Cfg PAwaitGet st c) (Cfg PDone st (c ++ [LogError e]))
| s_loop_exc st c docs w e :
    fs_get st conversations = Val docs -> after_get st c docs = (w, Exc e) ->
    sstep (Cfg PAwaitGet st c) (Cfg PDone st (w_console w ++ [LogError e]))
| s_loop_commit st c docs w b n :
    fs_get st conversations = Val docs -> after_get st c docs = (w, Val (b, n)) ->
    Nat.ltb 0 n = true ->
    sstep (Cfg PAwaitGet st c) (Cfg (PAwaitCommit b n) st (w_console w))
| s_loop_nothing st c docs w b n :
    fs_get st conversations = Val docs -> after_get st c docs = (w, Val (b, n)) ->
    Nat.ltb 0 n = false ->
    sstep (Cfg PAwaitGet st c) (Cfg PDone st (w_console w ++ [LogNothing]))
| s_commit_ok st c b n st' :
    fs_commit st b = Val st' ->
    sstep (Cfg (PAwaitCommit b n) st c) (Cfg PDone st' (c ++ [LogDone n]))
| s_commit_exc st c b n e :
    fs_commit st b = Exc e ->
    sstep (Cfg (PAwaitCommit b n) st c) (Cfg PDone st (c ++ [LogError e])).

(** Steps of the script or of another client. *)
Inductive step (env : St -> St -> Prop) : config -> config -> Prop :=
| step_script cf cf' : sstep cf cf' -> step env cf cf'
| step_env p st st' c : env st st' -> step env (Cfg p st c) (Cfg p st' c).

(** An execution with the number of script steps it contains. *)
Inductive exec (env : St -> St -> Prop) : config -> nat -> config -> Prop :=
| exec_refl cf : exec env cf 0 cf
| exec_script cf cf' n cf'' : sstep cf cf' -> exec env cf' n cf'' -> exec env cf (S n) cf''
| exec_env p st st' c n cf'' :
    env st st' -> exec env (Cfg p st' c) n cf'' -> exec env (Cfg p st c) n cf''.

Definition init (st : St) : config := Cfg PStart st [].

Definition final (w : world St) : config := Cfg PDone (w_store w) (w_console w).

(** The script steps still to come. *)
Definition rank (p : phase) : nat :=
  match p with
  | PStart => 3
  | PAwaitGet => 2
  | PAwaitCommit _ _ => 1
  | PDone => 0
  end.

(** The last line of a finished run reports its outcome. *)
Definition outcome_msg (m : log_msg) : bool :=
  match m with
  | LogDone _ | LogNothing | LogError _ => true
  | _ => false
  end.

(** What holds of every reachable configuration. *)
Definition cfg_inv (cf : config) : Prop :=
  match c_phase cf with
  | PStart => c_console cf = []
  | PAwaitGet => c_console cf = [LogStart]
  | PAwaitCommit b n => n = length b /\ 0 < n /\ head (c_console cf) = Some LogStart
  | PDone => head (c_console cf) = Some LogStart /\
             exists m, last (c_console cf) = Some m /\ outcome_msg m = true
  end.

(** ** The script alone follows the function *)

Lemma body_unfold st c :
  migration_body (World st c) =
    match fs_get st conversations with
    | Exc e => (World st c, Exc e)
    | Val docs =>
        match after_get st c docs with
        | (w, Exc e) => (w, Exc e)
        | (w, Val (b, n)) =>
            if Nat.ltb 0 n then
              match fs_commit (w_store w) b with
              | Val st' => (World st' (w_console w ++ [LogDone n]), Val tt)
              | Exc e => (w, Exc e)
              end
            else (World (w_store w) (w_console w ++ [LogNothing]), Val tt)
        end
    end.
Proof.
  unfold migration_body, await_get, console_log, se_modify, after_get.
  unfold se_bind at 1. simpl. destruct (fs_get st conversations) as [docs|e]; [|done].
  unfold se_bind at 1 2. simpl.
  destruct (se_foldM forEach_body ([], 0) docs _) as [w [[b n]|e]]; [|done].
  destruct (Nat.ltb 0 n); unfold se_bind, await_commit; simpl; [|done].
  by destruct (fs_commit (w_store w) b).
Qed.

Lemma after_get_store st c docs :
  match after_get st c docs with
  | (w, Val acc) => w_store w = st /\ acc.2 = length acc.1
  | (w, Exc _) => w_store w = st
  end.
Proof. by apply loop_inv. Qed.

Lemma sstep_det cf cf1 cf2 : sstep cf cf1 -> sstep cf cf2 -> cf1 = cf2.
Proof.
  intros H1 H2. destruct H1; inversion H2; subst; try congruence;
    repeat match goal with
    | H : fs_get ?st ?c = _, H' : fs_get ?st ?c = _ |- _ => rewrite H in H'; injection H' as <-
    | H : after_get ?st ?c ?d = _, H' : after_get ?st ?c ?d = _ |- _ =>
        rewrite H in H'; injection H' as <- ?; subst
    end; congruence.
Qed.

Lemma sstep_done_irred st c cf : ~ sstep (Cfg PDone st c) cf.
Proof. inversion 1. Qed.

Lemma sstep_rank cf cf' : sstep cf cf' -> rank (c_phase cf') < rank (c_phase cf).
Proof. destruct 1; simpl; lia. Qed.

Lemma after_get_console st c docs :
  exists l, w_console (after_get st c docs).1 = c ++ LogFound (length docs) :: l.
Proof.
  unfold after_get. destruct (loop_console docs (World st (c ++ [LogFound (length docs)])) ([], 0))
    as [l Hl]. exists l. rewrite Hl. simpl. by rewrite <- app_assoc.
Qed.

Lemma head_app_some (l l' : list log_msg) x : head l = Some x -> head (l ++ l') = Some x.
Proof. by destruct l. Qed.

Lemma cfg_inv_outcome c m :
  head c = Some LogStart -> outcome_msg m = true ->
  head (c ++ [m]) = Some LogStart /\ exists m', last (c ++ [m]) = Some m' /\ outcome_msg m' = true.
Proof. intros Hh Hm. split; [by apply head_app_some|]. exists m. by rewrite last_snoc. Qed.

(** Every script step keeps the invariant. *)
Lemma sstep_inv cf cf' : cfg_inv cf -> sstep cf cf' -> cfg_inv cf'.
Proof.
  intros Hinv Hs. destruct Hs; unfold cfg_inv in *; simpl in *; subst;
    try (destruct Hinv as (_ & _ & Hh)); try (destruct Hinv as (Hh & _));
    try (apply cfg_inv_outcome; [|done]);
    try match goal with
    | H : after_get ?st ?c ?docs = (?w, _) |- _ =>
        destruct (after_get_console st c docs) as [l Hl];
        pose proof (after_get_store st c docs) as Hs; rewrite H in Hl, Hs; simpl in Hl, Hs;
        rewrite Hl
    end; try done.
  destruct Hs as [_ Hn]. simpl in Hn. split_and!; [done|by apply Nat.ltb_lt|done].
Qed.

(** The script's steps from a store reach the configuration that
    [run_migration] computes. *)
Lemma run_reaches (st : St) : rtc sstep (init st) (final (run_migration st).1).
Proof.
  rewrite run_body, body_unfold. unfold init.
  eapply rtc_l; [apply s_start|]. simpl.
  destruct (fs_get st conversations) as [docs|e] eqn:Hg;
    [|apply rtc_once; by apply s_get_exc].
  pose proof (after_get_store st [LogStart] docs) as Hs.
  destruct (after_get st [LogStart] docs) as [w [[b n]|e]] eqn:Ha; simpl in Hs.
  - destruct Hs as [Hs _]. rewrite Hs. destruct (Nat.ltb 0 n) eqn:Hn.
    + destruct (fs_commit st b) as [st'|e] eqn:Hc;
        (eapply rtc_l; [by eapply s_loop_commit|]); apply rtc_once;
        unfold final; simpl; rewrite ?Hs; by constructor.
    + apply rtc_once. unfold final. simpl. rewrite ?Hs. by eapply s_loop_nothing.
  - apply rtc_once. unfold final. simpl. rewrite ?Hs. by eapply s_loop_exc.
Qed.

(** Two finished configurations reached by the script's own steps are
    the same. *)
Lemma sstep_final_unique cf1 cf2 cf :
  rtc sstep cf cf1 -> rtc sstep cf cf2 -> c_phase cf1 = PDone -> c_phase cf2 = PDone -> cf1 = cf2.
Proof.
  intros H1 H2 P1 P2. destruct cf1 as [p1 s1 c1], cf2 as [p2 s2 c2]. simpl in *. subst.
  apply (rtc_det_final sstep sstep_det cf); [done|done|apply sstep_done_irred|apply sstep_done_irred].
Qed.

(** ** Properties *)

(** C14. Termination: however the steps of other clients are interleaved,
    an execution contains at most as many script steps as the rank of its
    first phase, three from the start. *)
Theorem script_steps_bounded env cf n cf' :
  exec env cf n cf' -> n <= rank (c_phase cf).
Proof.
  induction 1 as [cf|cf cf' n cf'' Hs _ IH|p st st' c n cf'' _ _ IH]; simpl in *; [lia| |done].
  pose proof (sstep_rank _ _ Hs). lia.
Qed.

(** C15. Invariant: in every configuration reachable from the start, with
    any writes of other clients in between, a pending commit carries
    exactly as many writes as the count it will print (and at least one),
    and a finished run's console starts with the start message and ends
    with its outcome. *)
Theorem reachable_inv env (st : St) cf :
  rtc (step env) (init st) cf -> cfg_inv cf.
Proof.
  intros Hr. apply (rtc_preserve (step env) cfg_inv) with (init st); [|done|done].
  intros a b [cf1 cf2 Hs|p s s' c _] Ha; [by eapply sstep_inv|done].
Qed.

End Machine.

(** ** Witnesses *)

Lemma script_steps_bounded_witness :
  exec mem_env (init sample_store) 1 (Cfg PAwaitGet sample_store ([] ++ [LogStart]))
  /\ 1 <= rank (c_phase (init sample_store)).
Proof.
  assert (Hx : exec mem_env (init sample_store) 1 (Cfg PAwaitGet sample_store ([] ++ [LogStart]))).
  { apply exec_script with (Cfg PAwaitGet sample_store ([] ++ [LogStart]));
      [apply s_start|apply exec_refl]. }
  split; [exact Hx|]. exact (script_steps_bounded mem_env _ _ _ Hx).
Defined.

Lemma reachable_inv_witness :
  rtc (step mem_env) (init sample_store) (Cfg PAwaitGet sample_store ([] ++ [LogStart]))
  /\ cfg_inv (Cfg PAwaitGet sample_store ([] ++ [LogStart])).
Proof.
  assert (Hr : rtc (step mem_env) (init sample_store) (Cfg PAwaitGet sample_store ([] ++ [LogStart]))).
  { apply rtc_once, step_script, s_start. }
  split; [exact Hr|]. exact (reachable_inv mem_env sample_store _ Hr).
Defined.

End Interleaving.
