(* ===== verification/Updates.v ===== *)
(** * The object [updates] and the batch it goes into

    The callback of lines 15-38 builds, for each document, the object
    [updates] (lines 21-31) and hands it to [batch.update] (line 34).
    This file states what that object is and what becomes of it:
    - [update_entry_ok] and [update_wf]: the shape of an [updates] object
      (its keys distinct, [participants] a pair of truthy ids,
      [updatedAt] a truthy value or the server-time sentinel), which
      [plan_updates] always has ([plan_updates_wf]);
    - the round trip from the object to the store: after a successful
      run, reading a key of the document gives back what the callback put
      under that key, the sentinel resolved to the commit time
      ([run_updates_roundtrip]), and every other field reads as before
      ([run_frame]);
    - [storable]: the values Firestore can hold (no array directly inside
      an array); on a stored document, [batch.update] rejects the object
      exactly when one of the two ids copied into [participants] is an
      array ([batch_rejects_array_ids]);
    - [batch_wf]: the batch pending at line 41 in any interleaving with
      other writers has one write per document, all in [conversations],
      none empty, each of the shape above ([pending_batch_wf]);
    - [lost_update]: when that batch commits, every document it names
      gets the [updatedAt] computed from the snapshot of line 9, over
      whatever another client wrote to it between [get] and [commit]. *)

From S2P Require Import Prelude JsValue Firestore MemStore Migration Samples MigrationProps Interleaving.
Import JS FS MemStore Migration Samples MigrationProps Interleaving.

Local Open Scope mig_scope.

Module Updates.

(** ** Definitions *)

(** One entry of an [updates] object, as lines 24 and 29 can write it. *)
Definition update_entry_ok (kv : string * field_value) : bool :=
  let '(k, fv) := kv in
  if String.eqb k "participants" then
    match fv with
    | FVal (VArray [s; b]) => truthy_v s && truthy_v b
    | _ => false
    end
  else if String.eqb k "updatedAt" then
    match fv with
    | FServerTimestamp => true
    | FVal v => truthy_v v
    end
  else false.

(** A well-formed [updates] object: distinct keys, each entry of the
    shape above. *)
Definition update_wf (u : update_data) : Prop :=
  NoDup (obj_keys u) /\ Forall (fun kv => update_entry_ok kv = true) u.

(** A document Firestore can hold: no field has an array directly inside
    an array. *)
Definition storable (data : fields) : bool :=
  forallb (fun kv => no_nested_arrays kv.2) (map_to_list data).

(** A batch as line 41 commits it: one write per document, all in
    [conversations], none empty, each well formed. *)
Definition batch_wf (b : write_batch) : Prop :=
  NoDup (fst <$> b) /\
  Forall (fun w => ref_coll w.1 = conversations /\ w.2 <> [] /\ update_wf w.2) b.

(** ** The shape of [plan_updates] *)

Lemma participants_pair_Some data s b :
  participants_pair data = Some (s, b) ->
  prop data "sellerId" = Some s /\ prop data "buyerId" = Some b /\
  truthy_v s = true /\ truthy_v b = true.
Proof.
  unfold participants_pair. destruct (needsParticipants data); [|done].
  destruct (prop data "sellerId") as [s'|], (prop data "buyerId") as [b'|]; try done.
  destruct (truthy_v s') eqn:Hs, (truthy_v b') eqn:Hb; simpl; try done.
  by intros [= <- <-].
Qed.

Lemma updatedAt_value_cases data :
  (exists v, prop data "createdAt" = Some v /\ truthy_v v = true /\ updatedAt_value data = FVal v)
  \/ updatedAt_value data = FServerTimestamp.
Proof.
  unfold updatedAt_value.
  destruct (js_or_cases FVal (prop data "createdAt") FServerTimestamp) as [?|[_ ->]]; auto.
Qed.

Lemma updatedAt_entry_ok data : update_entry_ok ("updatedAt", updatedAt_value data) = true.
Proof. by destruct (updatedAt_value_cases data) as [(v & _ & Hv & ->)| ->]. Qed.

(** [plan_updates] by cases: nothing, the pair, the time, or both in
    the order of lines 24 and 29. *)
Lemma plan_updates_cases data :
  plan_updates data =
    match participants_pair data with
    | Some (s, b) => [("participants", FVal (VArray [s; b]))]
    | None => []
    end ++ (if needsUpdatedAt data then [("updatedAt", updatedAt_value data)] else []).
Proof.
  unfold plan_updates. destruct (participants_pair data) as [[s b]|] eqn:Hp.
  - rewrite (participants_pair_needs _ _ _ Hp). by destruct (needsUpdatedAt data).
  - destruct (needsParticipants data), (needsUpdatedAt data); done.
Qed.

Lemma plan_updates_entries data :
  Forall (fun kv => update_entry_ok kv = true) (plan_updates data).
Proof.
  rewrite plan_updates_cases. apply Forall_app. split.
  - destruct (participants_pair data) as [[s b]|] eqn:Hp; [|done].
    destruct (participants_pair_Some _ _ _ Hp) as (_ & _ & Hs & Hb).
    repeat constructor. simpl. by rewrite Hs, Hb.
  - destruct (needsUpdatedAt data); [|done]. repeat constructor. apply updatedAt_entry_ok.
Qed.

Lemma plan_updates_nodup data : NoDup (obj_keys (plan_updates data)).
Proof.
  rewrite plan_updates_cases. unfold obj_keys. rewrite fmap_app.
  destruct (participants_pair data) as [[s b]|], (needsUpdatedAt data); simpl;
    repeat constructor; set_solver.
Qed.

(** An entry of the right shape names one of the two fields. *)
Lemma update_entry_ok_key kv :
  update_entry_ok kv = true -> kv.1 = "participants" \/ kv.1 = "updatedAt".
Proof.
  destruct kv as [k fv]. simpl.
  destruct (String.eqb k "participants") eqn:E1; [apply String.eqb_eq in E1; by left|].
  destruct (String.eqb k "updatedAt") eqn:E2; [apply String.eqb_eq in E2; by right|done].
Qed.

Lemma plan_updates_keys data k :
  k ∈ obj_keys (plan_updates data) -> k = "participants" \/ k = "updatedAt".
Proof.
  intros (kv & -> & Hkv)%list_elem_of_fmap.
  apply update_entry_ok_key. pose proof (plan_updates_entries data) as Hall.
  rewrite Forall_forall in Hall. by apply Hall.
Qed.

(** ** Validation of a stored document *)

Lemma storable_lookup data k v :
  storable data = true -> prop data k = Some v -> no_nested_arrays v = true.
Proof.
  unfold storable, prop. intros Hs Hk. rewrite forallb_forall in Hs.
  apply (Hs (k, v)). apply list_elem_of_In. by apply elem_of_map_to_list.
Qed.

(** An element of an array may be anything Firestore holds except an
    array. *)
Lemma no_nested_pair s b :
  no_nested_arrays s = true -> no_nested_arrays b = true ->
  no_nested_arrays (VArray [s; b]) = negb (is_array (Some s) || is_array (Some b)).
Proof. intros Hs Hb. destruct s, b; simpl in *; rewrite ?Hs, ?Hb; done. Qed.

Lemma plan_valid_storable data :
  storable data = true ->
  plan_valid data = negb (match participants_pair data with
                          | Some (s, b) => is_array (Some s) || is_array (Some b)
                          | None => false
                          end).
Proof.
  intros Hst. unfold plan_valid. rewrite plan_updates_cases, forallb_app.
  assert (Hu : forallb (fun kv => valid_field_value kv.2)
                 (if needsUpdatedAt data then [("updatedAt", updatedAt_value data)] else [])
               = true).
  { destruct (needsUpdatedAt data); [|done]. simpl. rewrite andb_true_r.
    destruct (updatedAt_value_cases data) as [(v & Hv & _ & ->)| ->]; [|done].
    simpl. by eapply storable_lookup. }
  rewrite Hu, andb_true_r. destruct (participants_pair data) as [[s b]|] eqn:Hp; [|done].
  destruct (participants_pair_Some _ _ _ Hp) as (Hs & Hb & _).
  simpl. rewrite andb_true_r.
  apply no_nested_pair; by eapply storable_lookup.
Qed.

(** ** The batch the loop stages *)

Section Batch.
Context {St : Type} `{!Firestore St}.

(** A loop that completes has accepted every update, so its batch is
    [planned]. *)
Lemma after_get_planned (st : St) c docs w b n :
  after_get st c docs = (w, Val (b, n)) -> b = planned docs.
Proof.
  unfold after_get.
  destruct (list_first_failure (fun d => plan_valid (ds_data d)) docs)
    as [Hv|(pre & d & post & -> & Hpre & Hd)].
  - rewrite loop_val by done. by intros [= _ <- _].
  - by rewrite loop_invalid.
Qed.

(** The batch pending at line 41, in any interleaving with other writers,
    is the one the loop staged from some answer to [get]. *)
Lemma reachable_pending_planned env (st : St) cf b n :
  rtc (step env) (init st) cf -> c_phase cf = PAwaitCommit b n ->
  exists st0 docs, fs_get st0 conversations = Val docs /\ b = planned docs.
Proof.
  intros Hr. revert b n.
  apply (rtc_preserve (step env)
           (fun cf => forall b n, c_phase cf = PAwaitCommit b n ->
              exists st0 docs, fs_get st0 conversations = Val docs /\ b = planned docs))
    with (init st); [|done|done].
  intros a a' [cf1 cf2 Hs|p s s' c _] Ha; [|exact Ha].
  destruct Hs as [| | |s0 c0 docs w b0 n0 Hg Hag _| | |]; intros b' n' Hp; simplify_eq/=.
  exists s0, docs. split; [done|]. by eapply after_get_planned.
Qed.
End Batch.

(** In a batch with distinct targets, the other writes miss the target
    of [w]. *)
Lemma nodup_fst_split (b1 b2 : write_batch) w :
  NoDup (fst <$> b1 ++ w :: b2) -> Forall (fun w' => w'.1 <> w.1) (b1 ++ b2).
Proof.
  rewrite fmap_app, fmap_cons. intros (_ & Hdisj & Hnd)%NoDup_app.
  apply NoDup_cons in Hnd as [Hn _]. apply Forall_app. split; apply Forall_forall.
  - intros x Hx Heq. apply (Hdisj x.1); [by apply list_elem_of_fmap_2|].
    rewrite Heq. by left.
  - intros x Hx Heq. apply Hn. rewrite <- Heq. by apply list_elem_of_fmap_2.
Qed.

Lemma planned_fst docs : fst <$> planned docs = ds_ref <$> filter (fun d => needs_write (ds_data d) = true) docs.
Proof. unfold planned. by rewrite <- list_fmap_compose. Qed.

Section WithLaws.
Context {St : Type} `{FirestoreLaws St}.

Lemma planned_batch_wf (st : St) docs :
  fs_get st conversations = Val docs -> batch_wf (planned docs).
Proof.
  intros Hg. split.
  - rewrite planned_fst. eapply sublist_NoDup; [by eapply get_refs_nodup|].
    apply fmap_sublist, sublist_filter.
  - apply Forall_forall. intros w (d & -> & Hd)%list_elem_of_fmap.
    apply list_elem_of_filter in Hd as [Hw Hd].
    pose proof (get_sound _ _ _ Hg) as Hs. rewrite Forall_forall in Hs.
    destruct (Hs d Hd) as [Hr _]. simpl. rewrite Hr. split_and!; [done| |].
    + intros Hp. apply needs_write_plan in Hp. congruence.
    + split; [apply plan_updates_nodup|apply plan_updates_entries].
Qed.
End WithLaws.

(** ** Properties *)

(** C17. Type: the object [updates] built at lines 21-31 always has
    distinct keys, and each entry is either [participants], an array of
    the two truthy ids, or [updatedAt], a truthy value or the
    server-time sentinel. *)
Theorem plan_updates_wf data : update_wf (plan_updates data).
Proof. split; [apply plan_updates_nodup|apply plan_updates_entries]. Qed.

Section Properties.
Context {St : Type} `{FirestoreLaws St}.

(** C18. Round trip: after a run that reports success, reading any key
    of a document of [conversations] gives back the value the callback
    put under that key in [updates], the server-time sentinel read as the
    one commit time. *)
Theorem run_updates_roundtrip (st : St) w' r :
  run_migration st = (w', r) -> reported_success w' = true ->
  exists t, forall id f k fv,
    fs_doc st (DocRef conversations id) = Some f -> obj_get (plan_updates f) k = Some fv ->
    exists f', fs_doc (w_store w') (DocRef conversations id) = Some f' /\
               f' !! k = Some (resolve t fv).
Proof.
  intros Hrun Hok. destruct (run_doc_backfill _ _ _ Hrun Hok) as [t Ht].
  exists t. intros id f k fv Hf Hk. eexists. split; [by apply Ht|].
  rewrite <- plan_updates_refines. by apply apply_update_lookup; [apply plan_updates_nodup|].
Qed.

(** C19. Frame: after a run that reports success, every field of every
    document of [conversations] other than [participants] and
    [updatedAt] reads as before the run. *)
Theorem run_frame (st : St) w' r :
  run_migration st = (w', r) -> reported_success w' = true ->
  forall id f k, fs_doc st (DocRef conversations id) = Some f ->
    k <> "participants" -> k <> "updatedAt" ->
    exists f', fs_doc (w_store w') (DocRef conversations id) = Some f' /\ f' !! k = f !! k.
Proof.
  intros Hrun Hok. destruct (run_doc_backfill _ _ _ Hrun Hok) as [t Ht].
  intros id f k Hf Hp Hu. eexists. split; [by apply Ht|].
  rewrite <- plan_updates_refines. apply apply_update_lookup_other.
  intros [|]%plan_updates_keys; contradiction.
Qed.

(** C21. Safety, in any interleaving with other writers: the batch
    pending at line 41 has one write per document, every write targets
    [conversations] and is not empty, and each [updates] object is well
    formed. *)
Theorem pending_batch_wf env (st : St) cf b n :
  rtc (step env) (init st) cf -> c_phase cf = PAwaitCommit b n -> batch_wf b.
Proof.
  intros Hr Hp. destruct (reachable_pending_planned _ _ _ _ _ Hr Hp) as (st0 & docs & Hg & ->).
  by eapply planned_batch_wf.
Qed.

End Properties.

(** C20. Error: on a document Firestore can hold, [batch.update] (line
    34) rejects the object [updates] exactly when the callback copied an
    array [sellerId] or [buyerId] into [participants]. *)
Theorem batch_rejects_array_ids data (batch : write_batch) r :
  storable data = true ->
  batch_update batch r (plan_updates data) = Exc (ErrInvalidArgument NestedArray) <->
  exists s b, participants_pair data = Some (s, b) /\ (is_array (Some s) || is_array (Some b)) = true.
Proof.
  intros Hst. pose proof (plan_valid_storable data Hst) as Hv.
  unfold batch_update. fold (plan_valid data). rewrite Hv.
  destruct (participants_pair data) as [[s b]|].
  - split; [|by intros (? & ? & [= <- <-] & ->)].
    destruct (is_array (Some s) || is_array (Some b)) eqn:Ha; cbn [negb]; [by eauto|by intros [=]].
  - split; [done|]. by intros (? & ? & ? & _).
Qed.

(** ** Witnesses *)

Lemma run_updates_roundtrip_witness :
  reported_success (run_migration sample_store).1 = true
  /\ exists t, forall id f k fv,
    fs_doc sample_store (DocRef conversations id) = Some f -> obj_get (plan_updates f) k = Some fv ->
    exists f', fs_doc (w_store (run_migration sample_store).1) (DocRef conversations id) = Some f' /\
               f' !! k = Some (resolve t fv).
Proof.
  split; [vm_compute; reflexivity|].
  apply (run_updates_roundtrip sample_store _ (run_migration sample_store).2);
    vm_compute; reflexivity.
Defined.

Lemma run_frame_witness :
  reported_success (run_migration sample_store).1 = true
  /\ exists f', fs_doc (w_store (run_migration sample_store).1) (DocRef conversations "a") = Some f'
       /\ f' !! "sellerId" = doc_a !! "sellerId".
Proof.
  split; [vm_compute; reflexivity|].
  apply (run_frame sample_store _ (run_migration sample_store).2);
    [vm_compute; reflexivity|vm_compute; reflexivity|vm_compute; reflexivity|discriminate|discriminate].
Defined.

Lemma batch_rejects_array_ids_witness :
  storable doc_bad = true
  /\ (batch_update [] (DocRef conversations "x") (plan_updates doc_bad)
        = Exc (ErrInvalidArgument NestedArray) <->
      exists s b, participants_pair doc_bad = Some (s, b) /\
                  (is_array (Some s) || is_array (Some b)) = true).
Proof.
  split; [vm_compute; reflexivity|]. apply batch_rejects_array_ids. vm_compute; reflexivity.
Defined.

Lemma pending_batch_wf_witness :
  let docs := docs_of sample_store in
  let b := planned docs in
  let w := (after_get sample_store ([] ++ [LogStart]) docs).1 in
  rtc (step mem_env) (init sample_store) (Cfg (PAwaitCommit b (length b)) sample_store (w_console w))
  /\ batch_wf b.
Proof.
  intros docs b w.
  assert (Hr : rtc (step mem_env) (init sample_store)
                 (Cfg (PAwaitCommit b (length b)) sample_store (w_console w))).
  { eapply rtc_l; [apply step_script, s_start|]. apply rtc_once, step_script.
    apply (s_loop_commit _ _ docs w b (length b)); vm_compute; reflexivity. }
  split; [exact Hr|]. exact (pending_batch_wf mem_env sample_store _ _ _ Hr eq_refl).
Defined.


End Updates.
