(* ===== verification/Isolation.v ===== *)
(** * The script among writers of other collections

    On the in-memory store, other clients that write only collections
    other than [conversations] do not change what the script does: an
    interleaved execution ([step other_env]) ends with the console that
    [run_migration] prints and a store that agrees with the one it
    computes on [conversations], the clock, the availability and the
    write limit.  The proof is a simulation: [sim] relates a
    configuration of the interleaved machine to one of the script alone,
    and [sstep_sim] matches each script step, while the other writers'
    steps are absorbed by [agree], an equivalence on stores that [get] and
    [commit] respect ([get_agree], [mem_commit_agree]). *)

From S2P Require Import Prelude JsValue Firestore MemStore Migration Samples MigrationProps Interleaving Updates.
Import JS FS MemStore Migration Samples MigrationProps Interleaving Updates.

Local Open Scope mig_scope.

Module Isolation.

(** ** Definitions *)

(** Two stores with the same [conversations], clock, availability and
    write limit. *)
Definition agree (st1 st2 : mem_store) : Prop :=
  ms_coll (ms_db st1) conversations = ms_coll (ms_db st2) conversations /\
  ms_now st1 = ms_now st2 /\ ms_online st1 = ms_online st2 /\
  ms_max_writes st1 = ms_max_writes st2.

(** A write of another client that leaves [conversations] alone. *)
Definition other_env (st st' : mem_store) : Prop :=
  mem_env st st' /\ ms_coll (ms_db st') conversations = ms_coll (ms_db st) conversations.

(** Every write of a pending batch targets [conversations]. *)
Definition phase_in_coll (p : phase) : Prop :=
  match p with
  | PAwaitCommit b _ => Forall (fun w => ref_coll w.1 = conversations) b
  | _ => True
  end.

(** An interleaved configuration and a configuration of the script alone
    in the same phase, with the same console and agreeing stores. *)
Definition sim (cf cfs : @config mem_store) : Prop :=
  c_phase cf = c_phase cfs /\ c_console cf = c_console cfs /\
  agree (c_store cf) (c_store cfs) /\ phase_in_coll (c_phase cf).

(** ** [agree] is an equivalence that [get] and [commit] respect *)

#[export] Instance agree_equiv : Equivalence agree.
Proof.
  split.
  - intros st. by split_and!.
  - intros st1 st2 (? & ? & ? & ?). by split_and!.
  - intros st1 st2 st3 (? & ? & ? & ?) (? & ? & ? & ?). split_and!; congruence.
Qed.

Lemma other_env_agree st st' : other_env st st' -> agree st st'.
Proof. intros [Henv Hc]. split; [done|]. by destruct Henv. Qed.

Lemma get_agree st1 st2 :
  agree st1 st2 -> fs_get st1 conversations = fs_get st2 conversations.
Proof. intros (Hc & _ & Ho & _). cbn. unfold mem_get. by rewrite Ho, Hc. Qed.

Lemma find_ext_Forall {A} (f g : A -> bool) l :
  Forall (fun x => f x = g x) l -> List.find f l = List.find g l.
Proof. induction 1 as [|x l Hx _ IH]; simpl; [done|]. by rewrite Hx, IH. Qed.

(** A batch into [conversations] commits alike on agreeing stores: both
    fail with the same error, or both succeed with agreeing results. *)
Lemma mem_commit_agree st1 st2 b :
  agree st1 st2 -> Forall (fun w => ref_coll w.1 = conversations) b ->
  match mem_commit st1 b, mem_commit st2 b with
  | Val a1, Val a2 => agree a1 a2
  | Exc e1, Exc e2 => e1 = e2
  | _, _ => False
  end.
Proof.
  intros (Hc & Hn & Ho & Hm) Hb. unfold mem_commit. rewrite Ho, Hm.
  destruct (ms_online st2); simpl; [|done].
  destruct (Nat.ltb (ms_max_writes st2) (length b)); [done|].
  rewrite (find_ext_Forall (is_missing st1) (is_missing st2)).
  - destruct (List.find (is_missing st2) b); [done|]. split_and!; simpl; [|done..].
    apply map_eq. intros id. by rewrite !lookup_foldl_write_db, Hc, Hn.
  - eapply Forall_impl; [exact Hb|]. intros [[c id] u] Hw. simpl in Hw. subst c.
    unfold is_missing, mem_doc. simpl. by rewrite Hc.
Qed.

(** The loop after [get] reads only the snapshot. *)
Lemma after_get_agree (st st' : mem_store) c docs w r :
  after_get st c docs = (w, r) -> after_get st' c docs = (World st' (w_console w), r).
Proof.
  unfold after_get.
  destruct (list_first_failure (fun d => plan_valid (ds_data d)) docs)
    as [Hv|(pre & d & post & -> & Hpre & Hd)].
  - rewrite !loop_val by done. by intros [= <- <-].
  - rewrite !loop_invalid by done. by intros [= <- <-].
Qed.

(** ** The simulation *)

Lemma sstep_sim cf1 cf2 cfs1 :
  sstep cf1 cf2 -> sim cf1 cfs1 -> exists cfs2, sstep cfs1 cfs2 /\ sim cf2 cfs2.
Proof.
  intros Hs. destruct cfs1 as [ps ss cs]. intros (Hp & Hc & Hag & Hin). simpl in *. subst ps cs.
  destruct Hs as [st c|st c e Hg|st c docs w e Hg Ha|st c docs w b n Hg Ha Hn
                 |st c docs w b n Hg Ha Hn|st c b n st' Hcm|st c b n e Hcm];
    cbn [c_phase c_store c_console] in *; try rewrite (get_agree _ _ Hag) in Hg.
  - eexists. split; [apply s_start|]. by unfold sim; split_and!.
  - eexists. split; [by apply s_get_exc|]. by unfold sim; split_and!.
  - eexists. split; [eapply s_loop_exc; [done|eapply after_get_agree; exact Ha]|]. by unfold sim; split_and!.
  - eexists. split; [eapply s_loop_commit; [done|eapply after_get_agree; exact Ha|done]|].
    split_and!; [done|done|done|]. simpl.
    rewrite (after_get_planned _ _ _ _ _ _ Ha).
    destruct (planned_batch_wf ss docs Hg) as [_ Hwf].
    eapply Forall_impl; [exact Hwf|]. by intros ? [? _].
  - eexists. split; [eapply s_loop_nothing; [done|eapply after_get_agree; exact Ha|done]|]. by unfold sim; split_and!.
  - pose proof (mem_commit_agree st ss b Hag Hin) as Hm. cbn in Hcm. rewrite Hcm in Hm.
    destruct (mem_commit ss b) as [ss'|e] eqn:Hcs; [|done].
    exists (Cfg PDone ss' (c ++ [LogDone n])). split; [by apply s_commit_ok|]. by unfold sim; split_and!.
  - pose proof (mem_commit_agree st ss b Hag Hin) as Hm. cbn in Hcm. rewrite Hcm in Hm.
    destruct (mem_commit ss b) as [ss'|e'] eqn:Hcs; [done|]. subst e'.
    exists (Cfg PDone ss (c ++ [LogError e])). split; [by apply s_commit_exc|]. by unfold sim; split_and!.
Qed.

Lemma sim_exec cf1 cf2 cfs1 :
  rtc (step other_env) cf1 cf2 -> sim cf1 cfs1 ->
  exists cfs2, rtc sstep cfs1 cfs2 /\ sim cf2 cfs2.
Proof.
  intros Hr. revert cfs1.
  induction Hr as [cf|cf cf' cf'' Hstep _ IH]; intros cfs1 Hsim; [by exists cfs1|].
  destruct Hstep as [cf cf' Hs|p st st' c Henv].
  - destruct (sstep_sim _ _ _ Hs Hsim) as (cfs2 & Hs2 & Hsim2).
    destruct (IH _ Hsim2) as (cfs3 & Hr3 & Hsim3). exists cfs3. split; [|done].
    by eapply rtc_l.
  - apply IH. destruct Hsim as (Hp & Hc & Hag & Hin). split_and!; [done|done| |done].
    simpl in *. by rewrite <- (other_env_agree _ _ Henv).
Qed.

(** ** Properties *)

(** C22. Refinement: an execution of the script interleaved with writes of
    other clients to collections other than [conversations] ends, like the
    script run alone, with the console [run_migration] prints and a store
    whose [conversations] is the one [run_migration] computes. *)
Theorem other_writers_refine (st : mem_store) cf :
  rtc (step other_env) (init st) cf -> c_phase cf = PDone ->
  c_console cf = w_console (run_migration st).1 /\
  agree (c_store cf) (w_store (run_migration st).1).
Proof.
  intros Hr Hp.
  destruct (sim_exec _ _ (init st) Hr) as (cfs & Hrs & Hph & Hc & Hag & _);
    [by split_and!|].
  assert (Heq : cfs = final (run_migration st).1).
  { apply (sstep_final_unique _ _ (init st) Hrs (run_reaches st)); [congruence|done]. }
  subst cfs. done.
Qed.

(** ** Witnesses *)

Lemma other_writers_refine_witness :
  exists cf, rtc (step other_env) (init sample_store) cf /\ c_phase cf = PDone /\
    c_console cf = w_console (run_migration sample_store).1 /\
    agree (c_store cf) (w_store (run_migration sample_store).1).
Proof.
  pose (st1 := MemSt (<["users" := <["u1" := ∅]> (ms_coll (ms_db sample_store) "users")]>
                        (ms_db sample_store))
                     (ms_now sample_store) (ms_online sample_store) (ms_max_writes sample_store)).
  pose (docs := docs_of sample_store).
  pose (w := (after_get st1 ([] ++ [LogStart]) docs).1).
  pose (b := planned docs).
  destruct (mem_commit st1 b) as [st2|e] eqn:Hc; [|vm_compute in Hc; discriminate].
  assert (Hr : rtc (step other_env) (init sample_store)
                 (Cfg PDone st2 (w_console w ++ [LogDone (length b)]))).
  { eapply rtc_l; [apply step_script, s_start|].
    eapply rtc_l; [apply step_env; split; [apply (env_set _ "users" "u1" ∅)|];
                   vm_compute; reflexivity|].
    eapply rtc_l; [apply step_script; apply (s_loop_commit _ _ docs w b (length b));
                   vm_compute; reflexivity|].
    apply rtc_once, step_script, s_commit_ok. exact Hc. }
  eexists. split; [exact Hr|]. split; [reflexivity|].
  exact (other_writers_refine sample_store _ Hr eq_refl).
Defined.

End Isolation.
