(* ===== verification/Report.v ===== *)
(** * What a run reports

    The script reports its outcome only through the console: the number
    of documents it staged ([LogDone], line 42) or that there was nothing
    to do ([LogNothing], line 44).  This file relates the report to the
    store:
    - [needs_write_changes]: a document is staged exactly when its
      backfill changes it, whatever the server time;
    - [run_count_changed]: the count printed at line 42 is the length of
      [changed_docs], the documents of the snapshot whose stored content
      the run changed;
    - [run_silent_skip]: a document that needs [participants] but lacks
      one of the ids, and already has [updatedAt], is not reported: a
      collection of such documents and conforming ones gets exactly the
      report of a collection with nothing to do, and no write;
    - [run_console_truthful]: on success, every per-document message
      ([doc_msg], lines 25 and 30) names a document that holds what the
      message announces. *)

From S2P Require Import Prelude JsValue Firestore MemStore Migration Samples MigrationProps Updates.
Import JS FS MemStore Migration Samples MigrationProps Updates.

Local Open Scope mig_scope.

Module Report.

(** ** Definitions *)

(** The spec's "skipped: incomplete data": [participants] is missing or
    not an array, one of the ids is falsy, and [updatedAt] is set, so the
    callback does nothing for the document (lines 20-37). *)
(** The messages of lines 25 and 30, printed for one document. *)
Definition doc_msg (m : log_msg) : bool :=
  match m with
  | LogParticipants _ _ _ | LogUpdatedAt _ => true
  | _ => false
  end.

(** The documents of a snapshot whose content in [st'] differs from the
    one the snapshot read. *)
Definition changed_docs {St} `{!Firestore St} (st' : St) (docs : list doc_snapshot)
  : list doc_snapshot :=
  filter (fun d => fs_doc st' (ds_ref d) <> Some (ds_data d)) docs.

Definition incomplete (data : fields) : bool :=
  needsParticipants data && negb (truthy (prop data "sellerId") && truthy (prop data "buyerId"))
  && negb (needsUpdatedAt data).

(** ** Lemmas *)

(** A document is staged exactly when its backfill changes it. *)
Lemma needs_write_changes t data : needs_write data = true <-> spec_doc t data <> data.
Proof.
  split.
  - intros Hw Heq. destruct (participants_pair data) as [[s b]|] eqn:Hp.
    + pose proof (spec_doc_participants t data s b Hp) as Hs.
      pose proof (participants_pair_needs _ _ _ Hp) as Hn.
      unfold needsParticipants in Hn. rewrite Heq in Hs. by rewrite Hs in Hn.
    + destruct (needsUpdatedAt data) eqn:Hu.
      * pose proof (spec_doc_updatedAt t data Hu) as Hs. rewrite Heq in Hs.
        unfold needsUpdatedAt in Hu. rewrite Hs in Hu.
        destruct (prop data "createdAt") as [v|]; [destruct (truthy_v v) eqn:Hv|];
          simpl in Hu; rewrite ?Hv in Hu; discriminate.
      * assert (Hw' : needs_write data = false) by (apply needs_write_plan; by apply plan_nothing).
        congruence.
  - intros Hne. destruct (needs_write data) eqn:Hw; [done|].
    apply needs_write_plan in Hw. by apply (spec_doc_no_plan t) in Hw.
Qed.

Lemma incomplete_settled data :
  incomplete data = true -> needsUpdatedAt data = false /\ participants_pair data = None.
Proof.
  unfold incomplete, participants_pair. intros [[Hn Hids]%andb_prop Hu]%andb_prop.
  apply negb_true_iff in Hu. split; [done|]. rewrite Hn.
  destruct (prop data "sellerId") as [s|], (prop data "buyerId") as [b|]; try done.
  simpl in Hids. by apply negb_true_iff in Hids as ->.
Qed.

Lemma doc_logs_participants_in doc id s b :
  LogParticipants id s b ∈ doc_logs doc ->
  ds_id doc = id /\ participants_pair (ds_data doc) = Some (s, b).
Proof.
  unfold doc_logs. destruct (_ || _); [|by intros ?%elem_of_nil].
  destruct (participants_pair (ds_data doc)) as [[s' b']|], (needsUpdatedAt _); simpl;
    rewrite ?elem_of_cons, ?elem_of_nil; naive_solver.
Qed.

Lemma doc_logs_updatedAt_in doc id : LogUpdatedAt id ∈ doc_logs doc -> ds_id doc = id.
Proof.
  unfold doc_logs. destruct (_ || _); [|by intros ?%elem_of_nil].
  destruct (participants_pair (ds_data doc)) as [[s' b']|], (needsUpdatedAt _); simpl;
    rewrite ?elem_of_cons, ?elem_of_nil; naive_solver.
Qed.

Section Console.
Context {St : Type} `{!Firestore St}.

(** A per-document message on the console of a successful run was
    printed by the callback for a document of the snapshot. *)
Lemma console_msg_doc (st : St) w' r m :
  run_migration st = (w', r) -> reported_success w' = true -> m ∈ w_console w' ->
  doc_msg m = true ->
  exists docs d, fs_get st conversations = Val docs /\ d ∈ docs /\ m ∈ doc_logs d.
Proof.
  intros Hrun Hok Hin Hm.
  destruct (run_cases _ _ _ Hrun) as [_ [[_ Hb]|[Hko _]]]; [|congruence].
  destruct (body_val_inv _ _ _ Hb) as (docs & Hg & _ & Hcases). exists docs.
  assert (Hc : m ∈ concat (doc_logs <$> docs)).
  { destruct Hcases as [[_ ->]|(_ & _ & Hcon)]; [|rewrite Hcon in Hin]; cbn [w_console] in Hin;
      rewrite !elem_of_app, !list_elem_of_singleton in Hin;
      intuition (subst; simpl in *; congruence). }
  apply list_elem_of_In, in_concat in Hc as (l & Hl & Hml).
  apply list_elem_of_In, list_elem_of_fmap in Hl as (d & -> & Hd).
  exists d. split_and!; [done|done|by apply list_elem_of_In].
Qed.
(** A run whose console ends with "done" and a count completed its body,
    and the count is the number of staged documents. *)
Lemma run_done_count (st : St) docs w' r n :
  fs_get st conversations = Val docs ->
  run_migration st = (w', r) -> last (w_console w') = Some (LogDone n) ->
  n = length (planned docs) /\ migration_body (World st [LogStart]) = (w', Val tt).
Proof.
  intros Hg Hrun Hlast.
  destruct (run_cases _ _ _ Hrun) as [_ [[_ Hb]|[Hko _]]];
    [|unfold reported_success in Hko; by rewrite Hlast in Hko].
  split; [|done].
  destruct (body_val_inv _ _ _ Hb) as (docs' & Hg' & _ & Hcases).
  rewrite Hg in Hg'. injection Hg' as <-.
  destruct Hcases as [[_ ->]|(_ & _ & Hcon)]; cbn [w_console] in *;
    rewrite ?Hcon, ?app_assoc, last_snoc in Hlast; simplify_eq/=; done.
Qed.
End Console.

Section Properties.
Context {St : Type} `{FirestoreLaws St}.

(** C23. Count: when a run ends with "done" and a count, the count is the
    number of documents of the snapshot whose stored content the run
    changed: every staged document changes and no other does. *)
Theorem run_count_changed (st : St) docs w' r n :
  fs_get st conversations = Val docs ->
  run_migration st = (w', r) -> last (w_console w') = Some (LogDone n) ->
  n = length (changed_docs (w_store w') docs).
Proof.
  intros Hg Hrun Hlast.
  destruct (run_done_count _ _ _ _ _ Hg Hrun Hlast) as [-> Hb].
  destruct (body_backfill _ _ _ Hb) as [t Ht].
  unfold planned, changed_docs. rewrite length_fmap. f_equal. apply filter_ext_Forall.
  eapply Forall_impl; [exact (get_sound _ _ _ Hg)|]. intros d [Hr Hd].
  rewrite Ht, Hr, decide_True by done. rewrite <- Hr, Hd. simpl.
  rewrite (needs_write_changes t). split; congruence.
Qed.

(** C24. Silent skip: when every document of the collection conforms or
    is incomplete (it needs [participants] but lacks an id, and has
    [updatedAt]), the run prints exactly the report of a run with nothing
    to do and writes nothing, incomplete documents included. *)
Theorem run_silent_skip (st : St) docs :
  fs_get st conversations = Val docs ->
  Forall (fun d => schema_ok (ds_data d) = true \/ incomplete (ds_data d) = true) docs ->
  run_migration st = (World st [LogStart; LogFound (length docs); LogNothing], Val tt).
Proof.
  intros Hg Hs. rewrite run_body, (body_settled _ _ _ Hg); [done|].
  eapply Forall_impl; [exact Hs|]. intros d [?|?]; [by apply schema_ok_settled|by apply incomplete_settled].
Qed.

(** C26. The console tells the truth: after a run that reports success,
    every document named by a message of line 25 holds the pair that
    message prints as [participants], and every document named by a
    message of line 30 holds a truthy [updatedAt]. *)
Theorem run_console_truthful (st : St) w' r :
  run_migration st = (w', r) -> reported_success w' = true ->
  (forall id s b, LogParticipants id s b ∈ w_console w' ->
     exists f', fs_doc (w_store w') (DocRef conversations id) = Some f' /\
                prop f' "participants" = Some (VArray [s; b])) /\
  (forall id, LogUpdatedAt id ∈ w_console w' ->
     exists f', fs_doc (w_store w') (DocRef conversations id) = Some f' /\
                truthy (prop f' "updatedAt") = true).
Proof.
  intros Hrun Hok. destruct (run_doc_backfill _ _ _ Hrun Hok) as [t Ht].
  split; [intros id s b Hin|intros id Hin];
    destruct (console_msg_doc _ _ _ _ Hrun Hok Hin eq_refl) as (docs & d & Hg & Hd & Hm);
    pose proof (get_sound _ _ _ Hg) as Hs; rewrite Forall_forall in Hs;
    destruct (Hs d Hd) as [Hr Hdoc]; rewrite Hr in Hdoc.
  - apply doc_logs_participants_in in Hm as [<- Hp].
    eexists. split; [by apply Ht|]. by apply spec_doc_participants.
  - apply doc_logs_updatedAt_in in Hm as <-.
    eexists. split; [by apply Ht|]. destruct (spec_doc_settled t (ds_data d)) as [Hu _].
    unfold needsUpdatedAt in Hu. by apply negb_false_iff in Hu.
Qed.
End Properties.

(** ** Witnesses *)

Lemma run_count_changed_witness :
  last (w_console (run_migration sample_store).1) = Some (LogDone 3)
  /\ 3 = length (changed_docs (w_store (run_migration sample_store).1) (docs_of sample_store)).
Proof.
  split; [vm_compute; reflexivity|].
  apply (run_count_changed sample_store (docs_of sample_store) _ (run_migration sample_store).2);
    vm_compute; reflexivity.
Defined.

Lemma run_silent_skip_witness :
  incomplete doc_e = true /\ schema_ok doc_e = false
  /\ run_migration incomplete_store
     = (World incomplete_store [LogStart; LogFound (length (docs_of incomplete_store)); LogNothing],
        Val tt).
Proof.
  split; [reflexivity|]. split; [reflexivity|].
  apply run_silent_skip; [vm_compute; reflexivity|].
  apply Forall_forall. intros d Hd. apply list_elem_of_In in Hd. vm_compute in Hd.
  destruct Hd as [<-|[<-|[]]]; first [left; reflexivity|right; reflexivity].
Defined.

Lemma run_console_truthful_witness :
  reported_success (run_migration sample_store).1 = true
  /\ LogParticipants "a" (VStr "S1") (VStr "B1") ∈ w_console (run_migration sample_store).1
  /\ exists f', fs_doc (w_store (run_migration sample_store).1) (DocRef conversations "a") = Some f'
       /\ prop f' "participants" = Some (VArray [VStr "S1"; VStr "B1"]).
Proof.
  assert (Hin : LogParticipants "a" (VStr "S1") (VStr "B1")
                ∈ w_console (run_migration sample_store).1).
  { apply list_elem_of_In. vm_compute. tauto. }
  split; [vm_compute; reflexivity|]. split; [exact Hin|].
  destruct (run_console_truthful sample_store _ (run_migration sample_store).2
              (surjective_pairing _)) as [Hp _]; [vm_compute; reflexivity|].
  exact (Hp _ _ _ Hin).
Defined.

End Report.
