(* ===== verification/Concurrent.v ===== *)
(** * Two runs of the script at once

    Spec section 5 says that concurrent re-runs of the operation are safe
    because of idempotence.  [step2] interleaves two runs of the script
    (each step a step [sstep] of one of them) on one store that satisfies
    [FirestoreLaws], with no other writer.  The invariant [inv2], proved by
    rule induction, says that:
    - every document is either as it was at the start or its backfill
      [spec_doc] at some server time, never an update applied to an
      already updated document in a way one run alone would not produce;
    - a pending batch writes, for each document, the [updates] object of
      its original content, once;
    - a run that has reported success has left every document of
      [conversations] backfilled, whatever the other run does after. *)

From S2P Require Import Prelude JsValue Firestore MemStore Migration Samples MigrationProps Interleaving Updates Report.
Import JS FS MemStore Migration Samples MigrationProps Interleaving Updates Report.

Local Open Scope mig_scope.

Module Concurrent.

Section TwoRuns.
Context {St : Type} `{FirestoreLaws St}.

(** ** Definitions *)

(** The phases and consoles of the two runs and the shared store. *)
Record config2 : Type :=
  Cfg2 { p_a : phase; p_b : phase; c2_store : St; c_a : list log_msg; c_b : list log_msg }.

(** A step of either run. *)
Inductive step2 : config2 -> config2 -> Prop :=
| step_a pa pb st ca cb pa' st' ca' :
    sstep (Cfg pa st ca) (Cfg pa' st' ca') -> step2 (Cfg2 pa pb st ca cb) (Cfg2 pa' pb st' ca' cb)
| step_b pa pb st ca cb pb' st' cb' :
    sstep (Cfg pb st cb) (Cfg pb' st' cb') -> step2 (Cfg2 pa pb st ca cb) (Cfg2 pa pb' st' ca cb').

Definition init2 (st : St) : config2 := Cfg2 PStart PStart st [] [].

(** The document [r] of [st] is the backfill of its content in [st0]. *)
Definition backfilled (st0 st : St) (r : doc_ref) : Prop :=
  exists t f, fs_doc st0 r = Some f /\ fs_doc st r = Some (spec_doc t f).

(** Every document is as in [st0], or in [conversations] and backfilled. *)
Definition doc_ok (st0 st : St) : Prop :=
  forall r, fs_doc st r = fs_doc st0 r \/ (ref_coll r = conversations /\ backfilled st0 st r).

Definition all_backfilled (st0 st : St) : Prop :=
  forall id, is_Some (fs_doc st0 (DocRef conversations id)) ->
    backfilled st0 st (DocRef conversations id).

(** A batch of one write per document of [conversations], each the
    [updates] object of the document's content in [st0]. *)
Definition batch_ok (st0 : St) (b : write_batch) : Prop :=
  NoDup (fst <$> b) /\
  Forall (fun w => ref_coll w.1 = conversations /\
                   exists f, fs_doc st0 w.1 = Some f /\ w.2 = plan_updates f) b.

(** Every document of [conversations] is written by [b] or backfilled. *)
Definition covers (st0 st : St) (b : write_batch) : Prop :=
  forall id, is_Some (fs_doc st0 (DocRef conversations id)) ->
    DocRef conversations id ∈ fst <$> b \/ backfilled st0 st (DocRef conversations id).

(** What one run guarantees in each phase. *)
Definition run_ok (st0 st : St) (p : phase) (c : list log_msg) : Prop :=
  match p with
  | PAwaitCommit b _ => batch_ok st0 b /\ covers st0 st b
  | PDone => reported_success (World st c) = true -> all_backfilled st0 st
  | _ => True
  end.

Definition inv2 (st0 : St) (cf : config2) : Prop :=
  doc_ok st0 (c2_store cf) /\ run_ok st0 (c2_store cf) (p_a cf) (c_a cf) /\
  run_ok st0 (c2_store cf) (p_b cf) (c_b cf).

(** ** Updating twice *)

(** Applying an update over its own result: the later one wins. *)
Lemma apply_update_twice t t' u f :
  NoDup (obj_keys u) -> apply_update t u (apply_update t' u f) = apply_update t u f.
Proof.
  intros Hnd. apply map_eq. intros k. destruct (decide (k ∈ obj_keys u)) as [Hk|Hk].
  - apply obj_get_Some_in in Hk as [fv Hfv]. by rewrite !(apply_update_lookup _ _ _ k fv).
  - by rewrite !apply_update_lookup_other.
Qed.

Lemma spec_doc_again t t' f :
  apply_update t (plan_updates f) (spec_doc t' f) = spec_doc t f.
Proof.
  rewrite <- !plan_updates_refines. apply apply_update_twice, plan_updates_nodup.
Qed.

Lemma needs_write_spec_doc t f : needs_write (spec_doc t f) = false.
Proof.
  destruct (spec_doc_settled t f) as [Hu Hp].
  apply needs_write_plan. by apply plan_nothing.
Qed.

Lemma spec_doc_unchanged t f : needs_write f = false -> spec_doc t f = f.
Proof. intros Hw. apply spec_doc_no_plan. by apply needs_write_plan. Qed.

(** ** The effect of a commit on the invariant *)

(** A committed well-formed batch backfills each of its targets, at one
    time, and leaves every other document as it was. *)
Lemma commit_effect st0 st b st' :
  doc_ok st0 st -> batch_ok st0 b -> fs_commit st b = Val st' ->
  exists t, forall r,
    ((r ∉ fst <$> b) /\ fs_doc st' r = fs_doc st r) \/
    ((r ∈ fst <$> b) /\ ref_coll r = conversations /\
     exists f, fs_doc st0 r = Some f /\ fs_doc st' r = Some (spec_doc t f)).
Proof.
  intros Hok [Hnd Hb] Hc. destruct (commit_spec _ _ _ Hc) as [t Ht].
  exists t. intros r. rewrite Ht. destruct (decide (r ∈ fst <$> b)) as [Hin|Hin].
  - right. split; [done|].
    apply list_elem_of_fmap in Hin as (w & -> & Hw).
    rewrite Forall_forall in Hb. destruct (Hb w Hw) as (Hc' & f & Hf & Hu).
    split; [done|]. exists f. split; [done|].
    apply list_elem_of_split in Hw as (b1 & b2 & ->).
    destruct w as [r u]. simpl in *. subst u.
    rewrite batch_effect_single by exact (nodup_fst_split b1 b2 (r, plan_updates f) Hnd).
    destruct (Hok r) as [->|(_ & t' & f' & Hf' & ->)]; rewrite ?Hf; simpl.
    + by rewrite plan_updates_refines.
    + rewrite Hf in Hf'. injection Hf' as <-. by rewrite spec_doc_again.
  - left. split; [done|]. apply batch_effect_other. apply Forall_forall.
    intros w Hw Heq. apply Hin. rewrite <- Heq. by apply list_elem_of_fmap_2.
Qed.

Lemma doc_ok_commit st0 st b st' :
  doc_ok st0 st -> batch_ok st0 b -> fs_commit st b = Val st' ->
  doc_ok st0 st' /\ (forall r, backfilled st0 st r -> backfilled st0 st' r).
Proof.
  intros Hok Hb Hc. destruct (commit_effect _ _ _ _ Hok Hb Hc) as [t Ht]. split.
  - intros r. destruct (Ht r) as [[_ Heq]|(_ & Hcoll & f & Hf & Hr)].
    + destruct (Hok r) as [?|(Hcoll & t' & f & Hf & Hr)]; [left; congruence|right].
      split; [done|]. exists t', f. by rewrite Heq.
    + right. split; [done|]. by exists t, f.
  - intros r (t' & f & Hf & Hr). destruct (Ht r) as [[_ Heq]|(_ & _ & f' & Hf' & Hr')].
    + exists t', f. by rewrite Heq.
    + by exists t, f'.
Qed.

(** ** The snapshot and the batch it yields *)

Lemma snapshot_doc st0 st docs d :
  doc_ok st0 st -> fs_get st conversations = Val docs -> d ∈ docs ->
  ref_coll (ds_ref d) = conversations /\
  ((fs_doc st0 (ds_ref d) = Some (ds_data d)) \/ backfilled st0 st (ds_ref d) /\
   needs_write (ds_data d) = false).
Proof.
  intros Hok Hg Hd. pose proof (get_sound _ _ _ Hg) as Hs. rewrite Forall_forall in Hs.
  destruct (Hs d Hd) as [Hr Hdoc]. split; [by rewrite Hr|].
  destruct (Hok (ds_ref d)) as [Heq|(_ & t & f & Hf & Hsd)]; [left; congruence|right].
  split; [by exists t, f|]. rewrite Hdoc in Hsd. injection Hsd as ->.
  apply needs_write_spec_doc.
Qed.

Lemma planned_batch_ok st0 st docs :
  doc_ok st0 st -> fs_get st conversations = Val docs -> batch_ok st0 (planned docs).
Proof.
  intros Hok Hg. split; [by destruct (planned_batch_wf st docs Hg)|].
  apply Forall_forall. intros w (d & -> & Hd)%list_elem_of_fmap.
  apply list_elem_of_filter in Hd as [Hw Hd]. simpl.
  destruct (snapshot_doc _ _ _ _ Hok Hg Hd) as [Hc [Hf|[_ Hn]]]; [|congruence].
  split; [done|]. by exists (ds_data d).
Qed.

Lemma planned_covers st0 st docs :
  doc_ok st0 st -> fs_get st conversations = Val docs -> covers st0 st (planned docs).
Proof.
  intros Hok Hg id [f Hf].
  destruct (Hok (DocRef conversations id)) as [Hst|[_ Hbf]]; [|by right].
  rewrite <- Hst in Hf. destruct (get_complete _ _ _ _ _ Hg Hf) as (d & Hd & Hid).
  pose proof (get_sound _ _ _ Hg) as Hs. rewrite Forall_forall in Hs.
  destruct (Hs d Hd) as [Hr Hdoc]. rewrite Hid in Hr.
  destruct (needs_write (ds_data d)) eqn:Hw.
  - left. rewrite planned_fst, <- Hr. apply list_elem_of_fmap_2, list_elem_of_filter. by split.
  - right. rewrite Hr, Hf in Hdoc. injection Hdoc as Hdd. rewrite <- Hdd in Hw.
    exists (0, 0)%Z, f. split; [congruence|]. by rewrite spec_doc_unchanged.
Qed.

(** ** One run's step and the other run's guarantee *)

Lemma success_error (st : St) c e : reported_success (World st (c ++ [LogError e])) = false.
Proof. unfold reported_success. cbn [w_console]. by rewrite last_snoc. Qed.

Lemma sstep_store p st c p' st' c' :
  sstep (Cfg p st c) (Cfg p' st' c') ->
  st' = st \/ exists b n, p = PAwaitCommit b n /\ fs_commit st b = Val st'.
Proof. inversion 1; subst; eauto. Qed.

Lemma run_ok_mono st0 st st' p c :
  (forall r, backfilled st0 st r -> backfilled st0 st' r) ->
  run_ok st0 st p c -> run_ok st0 st' p c.
Proof.
  intros Hm. destruct p as [| |b n|]; simpl; [done|done| |].
  - intros [Hb Hcov]. split; [done|]. intros id Hid.
    destruct (Hcov id Hid) as [?|?]; [by left|right; by apply Hm].
  - intros Hall Hs. intros id Hid. apply Hm. apply Hall; [|done].
    by unfold reported_success in *.
Qed.

(** A step of one run keeps the invariant of that run. *)
Lemma sstep_run_ok st0 cf cf' :
  doc_ok st0 (c_store cf) -> sstep cf cf' ->
  run_ok st0 (c_store cf) (c_phase cf) (c_console cf) ->
  run_ok st0 (c_store cf') (c_phase cf') (c_console cf').
Proof.
  intros Hok Hs.
  destruct Hs as [st c|st c e Hg|st c docs w e Hg Ha|st c docs w b n Hg Ha Hn
                 |st c docs w b n Hg Ha Hn|st c b n st' Hcm|st c b n e Hcm];
    cbn [c_store c_phase c_console run_ok] in *; intros Hrun; try done;
    try (intros Hsucc; by rewrite success_error in Hsucc).
  - rewrite (after_get_planned _ _ _ _ _ _ Ha).
    split; [by eapply planned_batch_ok|by eapply planned_covers].
  - intros _ id Hid. pose proof (after_get_store st c docs) as Hst. rewrite Ha in Hst.
    destruct Hst as [_ Hlen]. simpl in Hlen. apply Nat.ltb_ge in Hn.
    assert (Hb : b = []) by (destruct b; [done|simpl in Hlen; lia]).
    pose proof (after_get_planned _ _ _ _ _ _ Ha) as Hp.
    destruct (planned_covers _ _ _ Hok Hg id Hid) as [Hin|?]; [|done].
    rewrite <- Hp, Hb in Hin. by apply elem_of_nil in Hin.
  - destruct Hrun as [Hb Hcov]. intros _ id Hid.
    destruct (commit_effect _ _ _ _ Hok Hb Hcm) as [t Ht].
    destruct (Ht (DocRef conversations id)) as [[Hn Heq]|(_ & _ & f & Hf & Hr)].
    + destruct (Hcov id Hid) as [?|(t' & f & Hf & Hr)]; [done|]. exists t', f. by rewrite Heq.
    + by exists t, f.
Qed.

Lemma step2_inv st0 cf cf' : inv2 st0 cf -> step2 cf cf' -> inv2 st0 cf'.
Proof.
  unfold inv2. intros (Hok & Ha & Hb) Hs.
  destruct Hs as [pa pb st ca cb pa' st' ca' Hs|pa pb st ca cb pb' st' cb' Hs];
    cbn [c2_store p_a p_b c_a c_b] in *; pose proof (sstep_run_ok _ _ _ (Hok : doc_ok st0 (c_store (Cfg _ st _))) Hs) as Hrun;
    destruct (sstep_store _ _ _ _ _ _ Hs) as [->|(b & n & -> & Hc)];
    try (split_and!; auto; fail).
  - pose proof Ha as [Hbok _]. destruct (doc_ok_commit _ _ _ _ Hok Hbok Hc) as [Hok' Hm].
    split_and!; [done|by apply Hrun|by eapply run_ok_mono].
  - pose proof Hb as [Hbok _]. destruct (doc_ok_commit _ _ _ _ Hok Hbok Hc) as [Hok' Hm].
    split_and!; [done|by eapply run_ok_mono|by apply Hrun].
Qed.

(** ** Properties *)

(** C25. Concurrent re-runs: in every state reachable by two runs of the
    script interleaved on one store, every document is either as it was
    at the start or, in [conversations], the backfill of its original
    content at one server time; and a run that has reported success has
    left every document of [conversations] backfilled. *)
Theorem concurrent_runs_backfill (st0 : St) cf :
  rtc step2 (init2 st0) cf ->
  (forall r, fs_doc (c2_store cf) r = fs_doc st0 r \/
             (ref_coll r = conversations /\ backfilled st0 (c2_store cf) r)) /\
  (p_a cf = PDone -> reported_success (World (c2_store cf) (c_a cf)) = true ->
   all_backfilled st0 (c2_store cf)) /\
  (p_b cf = PDone -> reported_success (World (c2_store cf) (c_b cf)) = true ->
   all_backfilled st0 (c2_store cf)).
Proof.
  intros Hr.
  assert (Hinv : inv2 st0 cf).
  { apply (rtc_preserve step2 (inv2 st0)) with (init2 st0); [|done|].
    - intros a b Hs Ha. by eapply step2_inv.
    - split_and!; [by left|done|done]. }
  destruct cf as [pa pb st ca cb], Hinv as (Hok & Ha & Hb). simpl in *.
  split_and!; [done|intros ->; exact Ha|intros ->; exact Hb].
Qed.

End TwoRuns.

Arguments config2 St : clear implicits.

(** ** Witnesses *)

Lemma concurrent_runs_backfill_witness :
  exists cf, rtc step2 (init2 sample_store) cf /\ p_a cf = PDone /\
    reported_success (World (c2_store cf) (c_a cf)) = true /\
    all_backfilled sample_store (c2_store cf).
Proof.
  pose (docs := docs_of sample_store).
  pose (w := (after_get sample_store ([] ++ [LogStart]) docs).1).
  pose (b := planned docs).
  destruct (mem_commit sample_store b) as [st1|e] eqn:Hc1; [|vm_compute in Hc1; discriminate].
  destruct (mem_commit st1 b) as [st2|e] eqn:Hc2;
    [|apply mem_commit_val in Hc1 as [_ ->]; vm_compute in Hc2; discriminate].
  assert (Hr : rtc step2 (init2 sample_store)
                 (Cfg2 PDone PDone st2 (w_console w ++ [LogDone (length b)])
                       (w_console w ++ [LogDone (length b)]))).
  { eapply rtc_l; [apply step_a, s_start|].
    eapply rtc_l; [apply step_b, s_start|].
    eapply rtc_l; [apply step_a; apply (s_loop_commit _ _ docs w b (length b));
                   vm_compute; reflexivity|].
    eapply rtc_l; [apply step_b; apply (s_loop_commit _ _ docs w b (length b));
                   vm_compute; reflexivity|].
    eapply rtc_l; [apply step_a, s_commit_ok; exact Hc1|].
    apply rtc_once, step_b, s_commit_ok. exact Hc2. }
  destruct (concurrent_runs_backfill sample_store _ Hr) as (_ & HA & _).
  eexists. split; [exact Hr|]. split; [reflexivity|].
  assert (Hs : reported_success (World st2 (w_console w ++ [LogDone (length b)])) = true).
  { unfold reported_success. cbn [w_console]. by rewrite last_snoc. }
  split; [exact Hs|]. exact (HA eq_refl Hs).
Defined.

End Concurrent.
