(* ===== verification/Ambient.v ===== *)
(** * The ambient global [firebase]

    The script reaches the store through the global [firebase], which the
    browser page defines, already authenticated, or not at all: line 9
    evaluates [firebase.firestore()] before calling [get], and an
    undefined [firebase] throws a [ReferenceError] there, inside the
    [try].  Lines 12 and 29 read the same global and are only reached
    after line 9 succeeded.  [ambient_firestore] makes the global a store
    of its own, [option St]: [None] is the undefined global, whose [get]
    and [commit] throw [ErrNoFirebase]; [Some st] is a client of [st].
    Authentication is the client's: an unauthenticated client is a store
    whose calls answer [ErrPermissionDenied].
    [ambient_laws]: the global satisfies [FirestoreLaws] when the client
    does, so every theorem of the development stated over a store with
    its laws applies to the page's global as well. *)

From S2P Require Import Prelude JsValue Firestore.
Import JS FS.

Local Open Scope mig_scope.

Module Ambient.

Section Ambient.
Context {St : Type} `{!Firestore St}.

(** ** The global as a store *)

(** [firebase.firestore()] on the global: a client of [st], or the
    [ReferenceError] of an undefined [firebase]. *)
#[export] Instance ambient_firestore : Firestore (option St) := {
  fs_get g c := match g with Some st => fs_get st c | None => Exc ErrNoFirebase end;
  fs_commit g b :=
    match g with
    | Some st => match fs_commit st b with Val st' => Val (Some st') | Exc e => Exc e end
    | None => Exc ErrNoFirebase
    end;
  fs_doc g r := match g with Some st => fs_doc st r | None => None end;
}.

(** ** Lemmas *)

Lemma ambient_commit_val g b g' :
  fs_commit g b = Val g' -> exists st st', g = Some st /\ g' = Some st' /\ fs_commit st b = Val st'.
Proof.
  destruct g as [st|]; cbn; [|done].
  destruct (fs_commit st b) as [st'|e] eqn:Hc; [intros [= <-]; by eauto|by intros [=]].
Qed.

End Ambient.

#[export] Instance ambient_laws {St : Type} `{FirestoreLaws St} : FirestoreLaws (option St).
Proof.
  split.
  - intros [st|] c docs; cbn; [apply get_sound|done].
  - intros [st|] c docs; cbn; [apply get_nodup|done].
  - intros [st|] c docs id f; cbn; [apply get_complete|done].
  - intros g b g' (st & st' & -> & -> & Hc)%ambient_commit_val. cbn. by apply commit_spec.
  - intros g b g' (st & st' & -> & -> & Hc)%ambient_commit_val. cbn.
    exact (commit_targets _ _ _ Hc).
Qed.

End Ambient.
