(* ===== verification/Success.v ===== *)
(** * When a run succeeds, and what it counts

    The theorems of [MigrationProps] describe a run that reports success;
    this file gives, on the in-memory store, the conditions under which it
    does, and bounds the two numbers the console prints.
    - [run_succeeds]: a run reports success when the service answers,
      [batch.update] accepts every document's update, and the batch stays
      within the write limit.  Nothing else can make it fail, because the
      batch targets only documents the same store just listed;
    - [run_counts]: line 10 prints the number of documents of
      [conversations], and the count of line 42 never exceeds it. *)

From S2P Require Import Prelude JsValue Firestore MemStore Migration Samples MigrationProps Interleaving Report.
Import JS FS MemStore Migration Samples MigrationProps Interleaving Report.

Local Open Scope mig_scope.

Module Success.

(** ** Lemmas *)

Lemma mem_get_docs_of st :
  ms_online st = true -> fs_get st conversations = Val (docs_of st).
Proof. intros Ho. cbn. unfold docs_of, mem_get. by rewrite Ho. Qed.

Lemma length_docs_of st :
  ms_online st = true -> length (docs_of st) = size (ms_coll (ms_db st) conversations).
Proof.
  intros Ho. unfold docs_of, mem_get. rewrite Ho, length_fmap. apply length_map_to_list.
Qed.

(** The batch staged from the store's own snapshot targets only documents
    of the store. *)
Lemma planned_not_missing st docs :
  mem_get st conversations = Val docs -> List.find (is_missing st) (planned docs) = None.
Proof.
  intros Hg. apply find_Forall_false, Forall_forall.
  intros w (d & -> & Hd)%list_elem_of_fmap. apply list_elem_of_filter in Hd as [_ Hd].
  pose proof (mem_get_sound _ _ _ Hg) as Hs. rewrite Forall_forall in Hs.
  destruct (Hs d Hd) as [_ Hdoc]. unfold is_missing. simpl. by rewrite Hdoc.
Qed.

(** An available store within the write limit commits that batch. *)
Lemma mem_commit_planned st docs :
  mem_get st conversations = Val docs -> ms_online st = true ->
  length (planned docs) <= ms_max_writes st ->
  mem_commit st (planned docs) =
    Val (MemSt (foldl (write_db (ms_now st)) (ms_db st) (planned docs))
               (ms_now st) (ms_online st) (ms_max_writes st)).
Proof.
  intros Hg Ho Hlim. unfold mem_commit. rewrite Ho. simpl.
  replace (Nat.ltb (ms_max_writes st) (length (planned docs))) with false
    by (symmetry; apply Nat.ltb_ge; lia).
  by rewrite planned_not_missing.
Qed.

(** ** Properties *)

(** C27. Liveness: a run on an available store reports success when
    [batch.update] accepts the update of every document of the snapshot
    and the batch has no more writes than the store accepts. *)
Theorem run_succeeds (st : mem_store) :
  ms_online st = true ->
  Forall (fun d => plan_valid (ds_data d) = true) (docs_of st) ->
  length (planned (docs_of st)) <= ms_max_writes st ->
  reported_success (run_migration st).1 = true.
Proof.
  intros Ho Hv Hlim. pose proof (mem_get_docs_of st Ho) as Hg.
  rewrite run_body, (body_valid _ _ _ Hg Hv). cbn zeta.
  destruct (Nat.ltb 0 (length (planned (docs_of st)))).
  - cbn [fs_commit mem_firestore]. rewrite (mem_commit_planned _ _ Hg Ho Hlim).
    unfold reported_success. cbn [fst w_console]. by rewrite last_snoc.
  - unfold reported_success. cbn [fst w_console]. by rewrite last_snoc.
Qed.

(** C28. Bounds: on an available store, the console starts with the start
    message and the number of documents of [conversations] (line 10), and
    a count printed by line 42 is at most that number. *)
Theorem run_counts (st : mem_store) w' r :
  run_migration st = (w', r) -> ms_online st = true ->
  (exists l, w_console w' = LogStart :: LogFound (size (ms_coll (ms_db st) conversations)) :: l) /\
  (forall n, last (w_console w') = Some (LogDone n) ->
     n <= size (ms_coll (ms_db st) conversations)).
Proof.
  intros Hrun Ho. pose proof (mem_get_docs_of st Ho) as Hg.
  rewrite <- (length_docs_of st Ho). split.
  - revert Hrun. rewrite run_body, body_unfold, Hg.
    destruct (after_get_console st [LogStart] (docs_of st)) as [l Hl].
    destruct (after_get st [LogStart] (docs_of st)) as [w [[b n]|e]]; simpl in Hl;
      [destruct (Nat.ltb 0 n); [destruct (fs_commit (w_store w) b)|]|];
      intros [= <- _]; simpl; rewrite Hl; by eexists.
  - intros n Hlast. destruct (run_done_count _ _ _ _ _ Hg Hrun Hlast) as [-> _].
    unfold planned. rewrite length_fmap. apply length_filter_le.
Qed.

(** ** Witnesses *)

Lemma run_succeeds_witness :
  ms_online sample_store = true
  /\ Forall (fun d => plan_valid (ds_data d) = true) (docs_of sample_store)
  /\ length (planned (docs_of sample_store)) <= ms_max_writes sample_store
  /\ reported_success (run_migration sample_store).1 = true.
Proof.
  assert (Hv : Forall (fun d => plan_valid (ds_data d) = true) (docs_of sample_store)).
  { apply Forall_forall. intros d Hd. apply list_elem_of_In in Hd. vm_compute in Hd.
    repeat (destruct Hd as [<-|Hd]; [reflexivity|]). destruct Hd. }
  assert (Hlim : length (planned (docs_of sample_store)) <= ms_max_writes sample_store)
    by (vm_compute; lia).
  split; [reflexivity|]. split; [exact Hv|]. split; [exact Hlim|].
  exact (run_succeeds sample_store eq_refl Hv Hlim).
Defined.

Lemma run_counts_witness :
  ms_online sample_store = true
  /\ (exists l, w_console (run_migration sample_store).1
                = LogStart :: LogFound (size (ms_coll (ms_db sample_store) conversations)) :: l)
  /\ (forall n, last (w_console (run_migration sample_store).1) = Some (LogDone n) ->
       n <= size (ms_coll (ms_db sample_store) conversations)).
Proof.
  split; [reflexivity|].
  exact (run_counts sample_store _ (run_migration sample_store).2 (surjective_pairing _) eq_refl).
Defined.

End Success.
